(** * ReqBot: the classification-and-bookkeeping pipeline of [app.py]

    A shallow embedding of the Streamlit script [src/app.py]: the Python
    string operations it calls, the values [json.loads] hands back, the
    session state ([st.session_state.messages] and
    [st.session_state.requirements]), and one run of the script for each
    widget event.  The theorems at the end relate the specification's
    statements to this embedding. *)

From Stdlib Require Import Ascii String ZArith NArith Lia DecimalString.
From stdpp Require Import gmap strings list.

Local Open Scope string_scope.
Local Open Scope list_scope.

(** ** Python [str] operations

    A Python [str] is modelled as a Rocq [string] whose characters are the
    code points below 256 (ASCII and Latin-1); code points above that are
    outside the model. *)

Module PyStr.

Definition code (c : ascii) : N := N_of_ascii c.

Definition in_range (lo hi : N) (c : ascii) : bool :=
  ((lo <=? code c) && (code c <=? hi))%N.

(** [c.isupper()] for one character: A-Z, and the Latin-1 capitals
    U+00C0..U+00DE without the multiplication sign U+00D7. *)
Definition is_upper_char (c : ascii) : bool :=
  in_range 65 90 c || in_range 192 214 c || in_range 216 222 c.

Definition lower_char (c : ascii) : ascii :=
  if is_upper_char c then ascii_of_N (code c + 32) else c.

(** [s.lower()] *)
Fixpoint lower (s : string) : string :=
  match s with
  | EmptyString => EmptyString
  | String c s' => String (lower_char c) (lower s')
  end.

(** [c.isspace()]: TAB LF VT FF CR, the separators U+001C..U+001F, SPACE,
    NEL U+0085 and NO-BREAK SPACE U+00A0. *)
Definition isspace (c : ascii) : bool :=
  in_range 9 13 c || in_range 28 32 c || (code c =? 133)%N || (code c =? 160)%N.

(** [sub in s] *)
Fixpoint contains (sub s : string) : bool :=
  String.prefix sub s ||
  match s with
  | EmptyString => false
  | String _ s' => contains sub s'
  end.

(** The scan of [s.replace(old, new)] for a non-empty [old]: occurrences
    are found from left to right and do not overlap; [skip] counts the
    characters of the occurrence just replaced that are still to be
    passed over. *)
Fixpoint replace_from (old new : string) (skip : nat) (s : string) : string :=
  match s with
  | EmptyString => EmptyString
  | String c s' =>
      match skip with
      | S k => replace_from old new k s'
      | O =>
          if String.prefix old s
          then new +:+ replace_from old new (String.length old - 1) s'
          else String c (replace_from old new 0 s')
      end
  end.

(** With an empty [old], Python puts [new] before every character and at
    the end. *)
Fixpoint intersperse (new s : string) : string :=
  match s with
  | EmptyString => new
  | String c s' => new +:+ String c (intersperse new s')
  end.

(** [s.replace(old, new)] *)
Definition replace (s old new : string) : string :=
  match old with
  | EmptyString => intersperse new s
  | String _ _ => replace_from old new 0 s
  end.

Fixpoint lstrip (s : string) : string :=
  match s with
  | EmptyString => EmptyString
  | String c s' => if isspace c then lstrip s' else s
  end.

Fixpoint rstrip (s : string) : string :=
  match s with
  | EmptyString => EmptyString
  | String c s' =>
      match rstrip s' with
      | EmptyString => if isspace c then EmptyString else String c EmptyString
      | r => String c r
      end
  end.

(** [s.strip()] *)
Definition strip (s : string) : string := rstrip (lstrip s).

(** [drop n s] is the slice [s[n:]]. *)
Fixpoint drop (n : nat) (s : string) : string :=
  match n, s with
  | O, _ => s
  | S _, EmptyString => EmptyString
  | S k, String _ s' => drop k s'
  end.

End PyStr.

(** ** The category of a label

    Lines 94-104 of [add_requirement]: the label is lowered, its spaces
    become underscores, and the first test that succeeds names the key. *)

(** Lines 95-104, on the normalised label. *)
Definition category_key_of (category : string) : string :=
  if PyStr.contains "functional" category then "functional"
  else if PyStr.contains "non_functional" category
          || PyStr.contains "non-functional" category then "non_functional"
  else if PyStr.contains "domain" category then "domain"
  else if PyStr.contains "inverse" category then "inverse"
  else "functional".

(** Lines 94-104 on a label that is a string. *)
Definition resolve_category (label : string) : string :=
  let category := PyStr.replace (PyStr.lower label) " " "_" in
  category_key_of category.

(** ** Python values and exceptions

    What [json.loads] can return, and what the fallback dictionary of
    [classify_requirement] is made of.  A dictionary keeps its keys in
    insertion order, each key once.  A float is kept as the lexeme it was
    read from. *)

#[warnings="-register-all"]
Inductive value : Type :=
| VNone
| VBool (b : bool)
| VInt (n : Z)
| VFloat (lexeme : string)
| VStr (s : string)
| VList (items : list value)
| VDict (entries : list (string * value)).

Inductive exn : Type :=
| KeyError (key : string)
| TypeError
| AttributeError
| JSONDecodeError
| ApiError.  (* whatever the google.generativeai calls raise *)

Module PyDict.

(** [d.get(k)]: [None] when the key is absent. *)
Fixpoint get (d : list (string * value)) (k : string) : option value :=
  match d with
  | [] => None
  | (k', v) :: d' => if String.eqb k' k then Some v else get d' k
  end.

(** [d[k] = v]: a key already present keeps its place. *)
Fixpoint set (d : list (string * value)) (k : string) (v : value)
  : list (string * value) :=
  match d with
  | [] => [(k, v)]
  | (k', v') :: d' =>
      if String.eqb k' k then (k', v) :: d' else (k', v') :: set d' k v
  end.

End PyDict.

(** [v[k]] with a string subscript: only a dictionary holding the key
    answers; a missing key is a [KeyError], and lists, strings, numbers,
    booleans and [None] raise a [TypeError]. *)
Definition subscript (v : value) (k : string) : exn + value :=
  match v with
  | VDict d =>
      match PyDict.get d k with
      | Some x => inr x
      | None => inl (KeyError k)
      end
  | _ => inl TypeError
  end.

(** [v.lower()]: only a [str] has the method. *)
Definition method_lower (v : value) : exn + string :=
  match v with
  | VStr s => inr (PyStr.lower s)
  | _ => inl AttributeError
  end.

(** ** A reference decoder for [json.loads]

    The script is embedded over an arbitrary decoder (see the section
    below); this one runs the model on concrete response texts.  It follows
    the grammar of Python's [json] module: one value between optional
    whitespace, objects with string keys (a repeated key keeps the last
    value), arrays, strings with the escapes of RFC 8259 and no raw control
    character, numbers, and the literals [null], [true], [false], [NaN],
    [Infinity] and [-Infinity].  A [\uXXXX] escape above U+00FF names a
    character outside the character model and is refused. *)

Module Json.

Definition is_ws (c : ascii) : bool :=
  match c with
  | " "%char | "009"%char | "010"%char | "013"%char => true
  | _ => false
  end.

Fixpoint skip_ws (s : string) : string :=
  match s with
  | String c s' => if is_ws c then skip_ws s' else s
  | EmptyString => EmptyString
  end.

Definition is_digit (c : ascii) : bool := PyStr.in_range 48 57 c.

Definition hex_digit (c : ascii) : option N :=
  if PyStr.in_range 48 57 c then Some (PyStr.code c - 48)%N
  else if PyStr.in_range 97 102 c then Some (PyStr.code c - 87)%N
  else if PyStr.in_range 65 70 c then Some (PyStr.code c - 55)%N
  else None.

Inductive string_state : Type :=
| Plain
| Escaped
| Unicode (todo : nat) (acc : N).

(** The body of a string literal, after the opening quote: the decoded
    text and what follows the closing quote. *)
Fixpoint scan_string (st : string_state) (s : string) : option (string * string) :=
  match s with
  | EmptyString => None
  | String c s' =>
      let emit (d : ascii) :=
        match scan_string Plain s' with
        | Some (body, rest) => Some (String d body, rest)
        | None => None
        end in
      match st with
      | Plain =>
          if Ascii.eqb c "034"%char then Some (EmptyString, s')
          else if Ascii.eqb c "\"%char then scan_string Escaped s'
          else if (PyStr.code c <? 32)%N then None
          else emit c
      | Escaped =>
          match c with
          | "034"%char | "\"%char | "/"%char => emit c
          | "b"%char => emit "008"%char
          | "f"%char => emit "012"%char
          | "n"%char => emit "010"%char
          | "r"%char => emit "013"%char
          | "t"%char => emit "009"%char
          | "u"%char => scan_string (Unicode 4 0) s'
          | _ => None
          end
      | Unicode todo acc =>
          match hex_digit c with
          | None => None
          | Some d =>
              let acc' := (acc * 16 + d)%N in
              match todo with
              | 0 => None
              | 1 => if (acc' <? 256)%N then emit (ascii_of_N acc') else None
              | S k => scan_string (Unicode k acc') s'
              end
          end
      end
  end.

(** The longest run of digits at the head of [s], and the rest. *)
Fixpoint span_digits (s : string) : string * string :=
  match s with
  | String c s' =>
      if is_digit c
      then let (ds, rest) := span_digits s' in (String c ds, rest)
      else (EmptyString, s)
  | EmptyString => (EmptyString, EmptyString)
  end.

Fixpoint digits_value (acc : Z) (ds : string) : Z :=
  match ds with
  | EmptyString => acc
  | String c ds' => digits_value (10 * acc + Z.of_N (PyStr.code c - 48)) ds'
  end.

(** A number: an optional minus sign; then a single 0, or a digit 1-9
    and any digits; then, optionally, a dot and at least one digit; then,
    optionally, e or E, an optional sign and at least one digit.  It is an
    integer when neither the fraction nor the exponent is there, a float
    otherwise. *)
Definition scan_number (s : string) : option (value * string) :=
  let (sign, s1) :=
    match s with
    | String "-"%char r => ("-", r)
    | _ => (EmptyString, s)
    end in
  let int_part :=
    match s1 with
    | String "0"%char r => Some ("0", r)
    | String c r =>
        if is_digit c
        then let (ds, rest) := span_digits r in Some (String c ds, rest)
        else None
    | EmptyString => None
    end in
  match int_part with
  | None => None
  | Some (ip, s2) =>
      let (frac, s3) :=
        match s2 with
        | String "."%char r =>
            match span_digits r with
            | (EmptyString, _) => (EmptyString, s2)
            | (ds, rest) => ("." +:+ ds, rest)
            end
        | _ => (EmptyString, s2)
        end in
      let (expo, s4) :=
        match s3 with
        | String e r =>
            if Ascii.eqb e "e"%char || Ascii.eqb e "E"%char then
              let (esign, r') :=
                match r with
                | String "+"%char r1 => ("+", r1)
                | String "-"%char r1 => ("-", r1)
                | _ => (EmptyString, r)
                end in
              match span_digits r' with
              | (EmptyString, _) => (EmptyString, s3)
              | (ds, rest) => (String e esign +:+ ds, rest)
              end
            else (EmptyString, s3)
        | EmptyString => (EmptyString, s3)
        end in
      match frac, expo with
      | EmptyString, EmptyString =>
          let n := digits_value 0 ip in
          Some (VInt (if String.eqb sign "-" then - n else n), s4)
      | _, _ => Some (VFloat (sign +:+ ip +:+ frac +:+ expo), s4)
      end
  end.

(** [literal w v s]: the word [w] at the head of [s] reads as [v]. *)
Definition literal (w : string) (v : value) (s : string) : option (value * string) :=
  if String.prefix w s then Some (v, PyStr.drop (String.length w) s) else None.

Inductive goal : Type :=
| AValue
| Elements (acc : list value)
| Members (acc : list (string * value)).

(** Recursive descent.  For [AValue] the text starts at the value; for
    [Elements] and [Members] it starts at the next element or key, the
    whitespace before it already passed. *)
Fixpoint parse (fuel : nat) (g : goal) (s : string) : option (value * string) :=
  match fuel with
  | O => None
  | S fuel' =>
      match g with
      | AValue =>
          match s with
          | String "034"%char r =>
              match scan_string Plain r with
              | Some (body, rest) => Some (VStr body, rest)
              | None => None
              end
          | String "{"%char r =>
              match skip_ws r with
              | String "}"%char rest => Some (VDict [], rest)
              | r' => parse fuel' (Members []) r'
              end
          | String "["%char r =>
              match skip_ws r with
              | String "]"%char rest => Some (VList [], rest)
              | r' => parse fuel' (Elements []) r'
              end
          | String "n"%char _ => literal "null" VNone s
          | String "t"%char _ => literal "true" (VBool true) s
          | String "f"%char _ => literal "false" (VBool false) s
          | String "N"%char _ => literal "NaN" (VFloat "NaN") s
          | String "I"%char _ => literal "Infinity" (VFloat "Infinity") s
          | String "-"%char (String "I"%char _) =>
              literal "-Infinity" (VFloat "-Infinity") s
          | _ => scan_number s
          end
      | Elements acc =>
          match parse fuel' AValue s with
          | None => None
          | Some (v, r) =>
              match skip_ws r with
              | String ","%char r' => parse fuel' (Elements (acc ++ [v])) (skip_ws r')
              | String "]"%char rest => Some (VList (acc ++ [v]), rest)
              | _ => None
              end
          end
      | Members acc =>
          match s with
          | String "034"%char r =>
              match scan_string Plain r with
              | None => None
              | Some (key, r1) =>
                  match skip_ws r1 with
                  | String ":"%char r2 =>
                      match parse fuel' AValue (skip_ws r2) with
                      | None => None
                      | Some (v, r3) =>
                          let acc' := PyDict.set acc key v in
                          match skip_ws r3 with
                          | String ","%char r4 =>
                              parse fuel' (Members acc') (skip_ws r4)
                          | String "}"%char rest => Some (VDict acc', rest)
                          | _ => None
                          end
                      end
                  | _ => None
                  end
              end
          | _ => None
          end
      end
  end.

(** [json.loads(s)]; [None] stands for a [JSONDecodeError]. *)
Definition loads (s : string) : option value :=
  match parse (2 * String.length s + 2) AValue (skip_ws s) with
  | Some (v, rest) =>
      match skip_ws rest with
      | EmptyString => Some v
      | _ => None
      end
  | None => None
  end.

End Json.

(** ** [str(v)] and [repr(v)]

    What an f-string writes for a value.  A float is written by its
    lexeme (Python writes the shortest decimal that reads back to the same
    double, which this model does not compute), except the three special
    values. *)

Module PyRepr.

Definition dq : string := String "034"%char EmptyString.
Definition sq : string := "'".
Definition backslash : string := "\".

Definition hex_char (n : N) : ascii :=
  if (n <? 10)%N then ascii_of_N (48 + n) else ascii_of_N (87 + n).

(** [c.isprintable()] on the code points below 256. *)
Definition isprintable (c : ascii) : bool :=
  PyStr.in_range 32 126 c
  || (PyStr.in_range 161 255 c && negb (PyStr.code c =? 173)%N).

Definition escape_char (quote c : ascii) : string :=
  if Ascii.eqb c quote || Ascii.eqb c "\"%char then String "\"%char (String c EmptyString)
  else if Ascii.eqb c "009"%char then "\t"
  else if Ascii.eqb c "010"%char then "\n"
  else if Ascii.eqb c "013"%char then "\r"
  else if isprintable c then String c EmptyString
  else "\x" +:+ String (hex_char (PyStr.code c / 16)) (String (hex_char (PyStr.code c mod 16)) EmptyString).

Fixpoint escape (quote : ascii) (s : string) : string :=
  match s with
  | EmptyString => EmptyString
  | String c s' => escape_char quote c +:+ escape quote s'
  end.

(** [repr(s)] for a string: single quotes, unless the text has a single
    quote and no double quote. *)
Definition repr_str (s : string) : string :=
  if PyStr.contains sq s && negb (PyStr.contains dq s)
  then dq +:+ escape "034"%char s +:+ dq
  else sq +:+ escape "'"%char s +:+ sq.

Definition repr_int (n : Z) : string := NilZero.string_of_int (Z.to_int n).

Definition repr_float (lexeme : string) : string :=
  if String.eqb lexeme "NaN" then "nan"
  else if String.eqb lexeme "Infinity" then "inf"
  else if String.eqb lexeme "-Infinity" then "-inf"
  else lexeme.

Fixpoint join (sep : string) (l : list string) : string :=
  match l with
  | [] => EmptyString
  | [x] => x
  | x :: l' => x +:+ sep +:+ join sep l'
  end.

Fixpoint repr (v : value) : string :=
  match v with
  | VNone => "None"
  | VBool true => "True"
  | VBool false => "False"
  | VInt n => repr_int n
  | VFloat lexeme => repr_float lexeme
  | VStr s => repr_str s
  | VList items => "[" +:+ join ", " (map repr items) +:+ "]"
  | VDict entries =>
      "{" +:+ join ", " (map (fun kv => repr_str (fst kv) +:+ ": " +:+ repr (snd kv)) entries) +:+ "}"
  end.

(** [str(v)] *)
Definition str (v : value) : string :=
  match v with
  | VStr s => s
  | _ => repr v
  end.

End PyRepr.

(** ** Session state

    [st.session_state.messages] is a list of message dictionaries and
    [st.session_state.requirements] a dictionary from category key to a
    list of entries.  Timestamps are readings of [time.time()], kept as
    opaque numbers. *)

Record requirement_entry : Type := {
  original : string;
  rewritten : value;
  explanation : value;
  entry_timestamp : Z
}.

Record message : Type := {
  role : string;
  content : string;
  category : option value;
  timestamp : Z
}.

Record session_state : Type := {
  messages : list message;
  requirements : gmap string (list requirement_entry)
}.

(** The dictionary literal of lines 22-27, 127-132 and 196-201. *)
Definition empty_requirements : gmap string (list requirement_entry) :=
  <["functional" := []]> (<["non_functional" := []]>
    (<["domain" := []]> (<["inverse" := []]> ∅))).

(** Lines 19-27 on a new session: both attributes are created.  On every
    later run both are present and the two tests do nothing. *)
Definition fresh_session : session_state :=
  {| messages := []; requirements := empty_requirements |}.

Definition category_keys : gset string :=
  {[ "functional"; "non_functional"; "domain"; "inverse" ]}.

(** ** The world outside the script *)

(** [model.generate_content(prompt).text]: a text, or an exception. *)
Inductive reply : Type :=
| ReplyText (text : string)
| ReplyError.

(** Lines 30-44: the key is missing, or configuring raises, or there is a
    model to call. *)
Inductive gemini_setup : Type :=
| MissingKey
| SetupError
| Ready (generate_content : string -> reply).

Record env : Type := {
  gemini : gemini_setup;
  time_time : nat -> Z
}.

(** The widget event that started a run of the script. *)
Inductive trigger : Type :=
| NoEvent
| ClickClearAll
| ChatInput (user_input : string)
| ClickClearChat.

(** What a run puts on the page.  The titles, the introduction and the
    footer are fixed text and are left out. *)
Inductive element : Type :=
| Metric (label : string) (count : nat)
| Button (label : string)
| ChatMessage (role content : string)
| ErrorBox (text : string) (cause : option exn).

Record world : Type := {
  session : session_state;
  page : list element;
  clock : nat
}.

(** ** The script monad: reader of [env], state [world], and the three ways
    a run ends early *)

Inductive signal : Type :=
| Rerun
| Stop
| Raise (e : exn).

Definition script (A : Type) : Type := env -> world -> (signal + A) * world.

Definition ret {A} (a : A) : script A := fun _ w => (inr a, w).

Definition bind {A B} (c : script A) (k : A -> script B) : script B :=
  fun e w =>
    match c e w with
    | (inr a, w') => k a e w'
    | (inl sg, w') => (inl sg, w')
    end.

Declare Scope script_scope.
Delimit Scope script_scope with script.
Notation "x <- c1 ;; c2" := (bind c1 (fun x => c2))
  (at level 100, c1 at next level, c2 at level 200, right associativity) : script_scope.
Notation "c1 ;; c2" := (bind c1 (fun _ => c2))
  (at level 100, c2 at level 200, right associativity) : script_scope.
Local Open Scope script_scope.

Definition signal_now {A} (sg : signal) : script A := fun _ w => (inl sg, w).

(** [st.rerun()] and [st.stop()] *)
Definition st_rerun : script unit := signal_now Rerun.
Definition st_stop {A} : script A := signal_now Stop.

Definition lift {A} (r : exn + A) : script A :=
  match r with
  | inr a => ret a
  | inl e => signal_now (Raise e)
  end.

(** [try: body except Exception as e: handler e].  [st.rerun()] and
    [st.stop()] are not [Exception]s and pass through. *)
Definition try_except {A} (body : script A) (handler : exn -> script A) : script A :=
  fun e w =>
    match body e w with
    | (inl (Raise x), w') => handler x e w'
    | other => other
    end.

Definition emit (x : element) : script unit :=
  fun _ w => (inr tt, {| session := session w; page := page w ++ [x]; clock := clock w |}).

Definition get_session : script session_state := fun _ w => (inr (session w), w).

Definition put_session (s : session_state) : script unit :=
  fun _ w => (inr tt, {| session := s; page := page w; clock := clock w |}).

(** [st.session_state.messages = l] *)
Definition set_messages (l : list message) : script unit :=
  s <- get_session ;;
  put_session {| messages := l; requirements := requirements s |}.

(** [st.session_state.requirements = r] *)
Definition set_requirements (r : gmap string (list requirement_entry)) : script unit :=
  s <- get_session ;;
  put_session {| messages := messages s; requirements := r |}.

(** [st.session_state.messages.append(m)] *)
Definition append_message (m : message) : script unit :=
  s <- get_session ;;
  set_messages (messages s ++ [m]).

(** [time.time()] *)
Definition now : script Z :=
  fun e w =>
    (inr (time_time e (clock w)),
     {| session := session w; page := page w; clock := S (clock w) |}).

(** [st.error(text + str(e))] *)
Definition st_error (text : string) (cause : option exn) : script unit :=
  emit (ErrorBox text cause).

(** ** The script *)

(** [l[start:]] *)
Definition slice_from {A} (start : Z) (l : list A) : list A :=
  let len := Z.of_nat (length l) in
  let i := if (start <? 0)%Z then Z.max (start + len) 0 else Z.min start len in
  drop (Z.to_nat i) l.

(** The f-string of lines 51-72. *)
Definition prompt (requirement_text : string) : string :=
  "
    Analyze the following requirement and classify it into one of these categories:
    1. Functional Requirement
    2. Non-Functional Requirement
    3. Domain Requirement
    4. Inverse Requirement (what the system should NOT do)

    Requirement: " +:+ PyRepr.dq +:+ requirement_text +:+ PyRepr.dq +:+ "

    Respond in JSON format only with this structure:
    {
        " +:+ PyRepr.dq +:+ "classification" +:+ PyRepr.dq +:+ ": "
  +:+ PyRepr.dq +:+ "category_name" +:+ PyRepr.dq +:+ ",
        " +:+ PyRepr.dq +:+ "explanation" +:+ PyRepr.dq +:+ ": "
  +:+ PyRepr.dq +:+ "brief explanation" +:+ PyRepr.dq +:+ ",
        " +:+ PyRepr.dq +:+ "suggested_rewrite" +:+ PyRepr.dq +:+ ": "
  +:+ PyRepr.dq +:+ "suggested rewritten requirement if needed, otherwise keep original"
  +:+ PyRepr.dq +:+ "
    }

    Rules:
    - Functional: Describes what the system should do (features, behaviors)
    - Non-Functional: Describes how the system should behave (performance, security, usability)
    - Domain: Specific to the business/industry domain
    - Inverse: Describes what the system should NOT do or restrictions
    ".

(** The dictionary of lines 86-90. *)
Definition fallback (requirement_text : string) : value :=
  VDict [("classification", VStr "Unknown");
         ("explanation", VStr "Failed to classify");
         ("suggested_rewrite", VStr requirement_text)].

(** Line 79: what is done to the response text before it is decoded. *)
Definition strip_fences (response_text : string) : string :=
  PyStr.strip
    (PyStr.replace (PyStr.replace response_text "```json" EmptyString)
       "```" EmptyString).

(** The f-string of lines 169-175. *)
Definition bot_response (category explanation suggested_rewrite : value) : string :=
  "
        **Classification:** " +:+ PyRepr.str category +:+ "
        
        **Explanation:** " +:+ PyRepr.str explanation +:+ "
        
        **Suggested Rewrite:** " +:+ PyRepr.str suggested_rewrite +:+ "
        ".

(** [len(st.session_state.requirements[key])] *)
Definition count (key : string) : script nat :=
  s <- get_session ;;
  match requirements s !! key with
  | Some l => ret (length l)
  | None => lift (inl (KeyError key))
  end.

(** [st.session_state.requirements[key].append(entry)] *)
Definition append_requirement (key : string) (entry : requirement_entry) : script unit :=
  s <- get_session ;;
  match requirements s !! key with
  | Some l => set_requirements (<[key := l ++ [entry]]> (requirements s))
  | None => lift (inl (KeyError key))
  end.

(** [for x in l: f x] *)
Fixpoint for_each {A} (l : list A) (f : A -> script unit) : script unit :=
  match l with
  | [] => ret tt
  | x :: l' => f x ;; for_each l' f
  end.

Section Script.

(** [json.loads], with [None] for a [JSONDecodeError]. *)
Variable loads : string -> option value.

Definition json_loads (s : string) : exn + value :=
  match loads s with
  | Some v => inr v
  | None => inl JSONDecodeError
  end.

(** Lines 30-44. *)
Definition configure_gemini : script (string -> reply) :=
  fun e =>
    match gemini e with
    | Ready generate_content => ret generate_content e
    | MissingKey =>
        (st_error "Gemini API key not found. Please check your .env file." None ;;
         st_stop) e
    | SetupError =>
        (st_error "Error configuring Gemini: " (Some ApiError) ;; st_stop) e
    end.

Definition generate (model : string -> reply) (prompt : string) : exn + string :=
  match model prompt with
  | ReplyText text => inr text
  | ReplyError => inl ApiError
  end.

(** Lines 47-90. *)
Definition classify_requirement (model : string -> reply) (requirement_text : string)
  : script value :=
  try_except
    (response_text <- lift (generate model (prompt requirement_text)) ;;
     let response_text := strip_fences response_text in
     result <- lift (json_loads response_text) ;;
     ret result)
    (fun e =>
       st_error "Error classifying requirement: " (Some e) ;;
       ret (fallback requirement_text)).

(** Lines 94-104: the key for a classification result. *)
Definition categorize (classification_result : value) : script string :=
  label <- lift (subscript classification_result "classification") ;;
  lowered <- lift (method_lower label) ;;
  let category := PyStr.replace lowered " " "_" in
  ret (category_key_of category).

(** Lines 93-113. *)
Definition add_requirement (original_text : string) (classification_result : value)
  : script unit :=
  category_key <- categorize classification_result ;;
  rewritten <- lift (subscript classification_result "suggested_rewrite") ;;
  explanation <- lift (subscript classification_result "explanation") ;;
  t <- now ;;
  let requirement_entry :=
    {| original := original_text;
       rewritten := rewritten;
       explanation := explanation;
       entry_timestamp := t |} in
  append_requirement category_key requirement_entry.

(** Lines 116-134: the four counts and the first clear button. *)
Definition sidebar (t : trigger) : script unit :=
  n <- count "functional" ;; emit (Metric "Functional" n) ;;
  n <- count "non_functional" ;; emit (Metric "Non-Functional" n) ;;
  n <- count "domain" ;; emit (Metric "Domain" n) ;;
  n <- count "inverse" ;; emit (Metric "Inverse" n) ;;
  emit (Button "Clear All Requirements") ;;
  match t with
  | ClickClearAll =>
      set_requirements empty_requirements ;;
      set_messages [] ;;
      st_rerun
  | _ => ret tt
  end.

(** Lines 147-185: a submitted text.  The chat input gives [None] or a
    string, and an empty string is falsy. *)
Definition chat (t : trigger) (model : string -> reply) : script unit :=
  match t with
  | ChatInput user_input =>
      if String.eqb user_input EmptyString then ret tt
      else
        t0 <- now ;;
        append_message
          {| role := "user"; content := user_input; category := None; timestamp := t0 |} ;;
        classification_result <- classify_requirement model user_input ;;
        add_requirement user_input classification_result ;;
        category <- lift (subscript classification_result "classification") ;;
        explanation <- lift (subscript classification_result "explanation") ;;
        suggested_rewrite <- lift (subscript classification_result "suggested_rewrite") ;;
        let bot_response := bot_response category explanation suggested_rewrite in
        t1 <- now ;;
        append_message
          {| role := "assistant"; content := bot_response;
             category := Some category; timestamp := t1 |} ;;
        st_rerun
  | _ => ret tt
  end.

(** Lines 188-190. *)
Definition display : script unit :=
  s <- get_session ;;
  for_each (slice_from (-10) (messages s))
    (fun message => emit (ChatMessage (role message) (content message))).

(** Lines 193-202: the second clear button exists only when there are
    messages. *)
Definition clear_chat (t : trigger) : script unit :=
  s <- get_session ;;
  match messages s with
  | [] => ret tt
  | _ :: _ =>
      emit (Button "Clear Chat") ;;
      match t with
      | ClickClearChat =>
          set_messages [] ;;
          set_requirements empty_requirements ;;
          st_rerun
      | _ => ret tt
      end
  end.

(** One run of the script, top to bottom. *)
Definition app (t : trigger) : script unit :=
  model <- configure_gemini ;;
  sidebar t ;;
  chat t model ;;
  display ;;
  clear_chat t.

(** An event is handled by one run and, when the run asks for it, one
    more run without an event; the page keeps what both runs rendered, in
    order. *)
Definition handle (e : env) (t : trigger) (s : session_state) : (signal + unit) * world :=
  match app t e {| session := s; page := []; clock := 0 |} with
  | (inl Rerun, w) => app NoEvent e w
  | other => other
  end.

Definition session_after (e : env) (t : trigger) (s : session_state) : session_state :=
  session (snd (handle e t s)).

Definition page_after (e : env) (t : trigger) (s : session_state) : list element :=
  page (snd (handle e t s)).

(** What a run without an event renders from the state [s]. *)
Definition rendering (e : env) (s : session_state) : list element :=
  page (snd (app NoEvent e {| session := s; page := []; clock := 0 |})).

(** The states a session can be in. *)
Inductive reachable : session_state -> Prop :=
| reachable_fresh : reachable fresh_session
| reachable_step e t s : reachable s -> reachable (session_after e t s).

End Script.


(** ** Notions used in the statements *)

(** Every category key is a key of the store, and nothing else is. *)
Definition well_formed (s : session_state) : Prop :=
  dom (requirements s) = category_keys.

(** The number a metric shows for [key]. *)
Definition tally (s : session_state) (key : string) : nat :=
  length (default [] (requirements s !! key)).

Definition add_page (w : world) (l : list element) : world :=
  {| session := session w; page := page w ++ l; clock := clock w |}.

Definition sidebar_elements (s : session_state) : list element :=
  [Metric "Functional" (tally s "functional");
   Metric "Non-Functional" (tally s "non_functional");
   Metric "Domain" (tally s "domain");
   Metric "Inverse" (tally s "inverse");
   Button "Clear All Requirements"].

Definition chat_element (m : message) : element :=
  ChatMessage (role m) (content m).

Definition clear_chat_button (s : session_state) : list element :=
  match messages s with
  | [] => []
  | _ :: _ => [Button "Clear Chat"]
  end.

(** The page of a run without an event, written out. *)
Definition page_of (s : session_state) : list element :=
  sidebar_elements s
  ++ map chat_element (slice_from (-10) (messages s))
  ++ clear_chat_button s.

(** A clear button is pressed: the model is configured, the sidebar can
    show its counts, and the button pressed is on the page. *)
Definition clear_fires (e : env) (t : trigger) (s : session_state) : Prop :=
  (exists model, gemini e = Ready model)
  /\ well_formed s
  /\ (t = ClickClearAll \/ (t = ClickClearChat /\ messages s <> [])).

(** The two turns a submission adds to the log, and its entry. *)
Definition user_turn (text : string) (t : Z) : message :=
  {| role := "user"; content := text; category := None; timestamp := t |}.

Definition assistant_turn (label explanation rewrite : value) (t : Z) : message :=
  {| role := "assistant";
     content := bot_response label explanation rewrite;
     category := Some label;
     timestamp := t |}.

Definition entry_of (text : string) (rewrite explanation : value) (t : Z)
  : requirement_entry :=
  {| original := text; rewritten := rewrite; explanation := explanation;
     entry_timestamp := t |}.

(** The session after a submission of [text] at state [s] that was
    classified as [label], with [old] the list under the key of [label]. *)
Definition after_submission (e : env) (s : session_state) (text label : string)
    (rewrite explanation : value) (old : list requirement_entry) : session_state :=
  {| messages :=
       messages s
       ++ [user_turn text (time_time e 0);
           assistant_turn (VStr label) explanation rewrite (time_time e 2)];
     requirements :=
       <[resolve_category label := old ++ [entry_of text rewrite explanation (time_time e 1)]]>
         (requirements s) |}.

(** The script [c] keeps the keys of the store, however it ends. *)
Definition keeps_keys {A} (c : script A) : Prop :=
  forall e w, well_formed (session w) -> well_formed (session (snd (c e w))).

(** ** Removing a marker and stripping, said without the scan *)

(** [without pat s r]: [r] is [s] with the occurrences of [pat] taken
    out, each one found at the first place after the one before. *)
Inductive without (pat : string) : string -> string -> Prop :=
| without_end : without pat EmptyString EmptyString
| without_hit s r : without pat s r -> without pat (pat +:+ s) r
| without_keep c s r :
    String.prefix pat (String c s) = false ->
    without pat s r -> without pat (String c s) (String c r).

Fixpoint all_space (s : string) : bool :=
  match s with
  | EmptyString => true
  | String c s' => PyStr.isspace c && all_space s'
  end.

Definition first_is_space (s : string) : bool :=
  match s with
  | EmptyString => false
  | String c _ => PyStr.isspace c
  end.

Fixpoint last_is_space (s : string) : bool :=
  match s with
  | EmptyString => false
  | String c EmptyString => PyStr.isspace c
  | String _ s' => last_is_space s'
  end.

(** [stripped_of s r]: [r] is [s] without the whitespace at its two ends. *)
Definition stripped_of (s r : string) : Prop :=
  (exists l t, s = l +:+ r +:+ t /\ all_space l = true /\ all_space t = true)
  /\ first_is_space r = false
  /\ last_is_space r = false.

(** ** Concrete responses and environments, to run the script on *)

Definition quoted (s : string) : string := PyRepr.dq +:+ s +:+ PyRepr.dq.

Definition login_text : string := "The system shall allow login via email".

(** An object with the classification and nothing else. *)
Definition only_classification : string :=
  "{" +:+ quoted "classification" +:+ ": " +:+ quoted "Functional" +:+ "}".

(** An object whose classification is a number. *)
Definition numeric_classification : string :=
  "{" +:+ quoted "classification" +:+ ": 1, "
  +:+ quoted "explanation" +:+ ": " +:+ quoted "e" +:+ ", "
  +:+ quoted "suggested_rewrite" +:+ ": " +:+ quoted "r" +:+ "}".

(** The answer of the login example, inside a fence. *)
Definition login_response : string :=
  "```json
{" +:+ quoted "classification" +:+ ": " +:+ quoted "Functional" +:+ ",
 " +:+ quoted "explanation" +:+ ": " +:+ quoted "Describes a feature" +:+ ",
 " +:+ quoted "suggested_rewrite" +:+ ": " +:+ quoted login_text +:+ "}
```".

(** An answer with a fence marker inside a string value. *)
Definition fence_in_value : string :=
  "{" +:+ quoted "explanation" +:+ ": " +:+ quoted "put it in a ```json block" +:+ "}".

(** A model that answers every prompt with [r], and a clock that counts. *)
Definition steady_env (r : reply) : env :=
  {| gemini := Ready (fun _ => r); time_time := fun n => Z.of_nat n |}.

(** The model raises on every call. *)
Definition failing_env : env := steady_env ReplyError.

(** The model gives the answer of the login example. *)
Definition login_env : env := steady_env (ReplyText login_response).

(** The world at the start of a run on a new session. *)
Definition start_world : world :=
  {| session := fresh_session; page := []; clock := 0 |}.

(** The session after one failed classification of [login_text]. *)
Definition one_failed_submission : session_state :=
  session_after Json.loads failing_env (ChatInput login_text) fresh_session.

(** ** Notions used in the further statements *)

(** [map_chars f s]: [f] applied to every character of [s]. *)
Fixpoint map_chars (f : ascii -> ascii) (s : string) : string :=
  match s with
  | EmptyString => EmptyString
  | String c s' => String (f c) (map_chars f s')
  end.

(** What [replace(c, d)] does to one character. *)
Definition swap_char (c d x : ascii) : ascii :=
  if Ascii.eqb x c then d else x.

(** [has_char c s]: the character [c] occurs in [s]. *)
Fixpoint has_char (c : ascii) (s : string) : bool :=
  match s with
  | EmptyString => false
  | String x s' => Ascii.eqb x c || has_char c s'
  end.

(** The number of backticks [s] starts with. *)
Fixpoint leading_backticks (s : string) : nat :=
  match s with
  | String "`"%char s' => S (leading_backticks s')
  | _ => 0
  end.

(** The exception [add_requirement] ends in on the result [cr], if any:
    the subscripts and the [.lower()] call of lines 94, 108 and 109, in the
    order they are evaluated. *)
Definition shape_error (cr : value) : option exn :=
  match subscript cr "classification" with
  | inl x => Some x
  | inr (VStr _) =>
      match subscript cr "suggested_rewrite" with
      | inl x => Some x
      | inr _ =>
          match subscript cr "explanation" with
          | inl x => Some x
          | inr _ => None
          end
      end
  | inr _ => Some AttributeError
  end.

(** The session after a submission of [text] that got no further than
    the user turn. *)
Definition with_user_turn (e : env) (s : session_state) (text : string)
  : session_state :=
  {| messages := messages s ++ [user_turn text (time_time e 0)];
     requirements := requirements s |}.

(** The entries of the store, over the four keys. *)
Definition total_entries (s : session_state) : nat :=
  tally s "functional" + tally s "non_functional"
  + tally s "domain" + tally s "inverse".

(** The number of turns of a role in a log. *)
Fixpoint count_role (r : string) (log : list message) : nat :=
  match log with
  | [] => 0
  | m :: log' =>
      (if String.eqb (role m) r then 1 else 0) + count_role r log'
  end.

(** A user turn holds a non-empty text and no category; an assistant turn
    holds a category that is a string. *)
Definition turn_ok (m : message) : Prop :=
  (role m = "user" /\ content m <> EmptyString /\ category m = None)
  \/ (role m = "assistant" /\ exists label, category m = Some (VStr label)).

(** Every entry of the store holds a text that a user turn of the log
    holds. *)
Definition entries_from_log (s : session_state) : Prop :=
  forall key l entry,
    requirements s !! key = Some l -> entry ∈ l ->
    exists m, m ∈ messages s /\ role m = "user" /\ content m = original entry.

(** The fixed text of the prompt before the quoted requirement, and
    after it. *)
Definition prompt_head : string :=
  "
    Analyze the following requirement and classify it into one of these categories:
    1. Functional Requirement
    2. Non-Functional Requirement
    3. Domain Requirement
    4. Inverse Requirement (what the system should NOT do)

    Requirement: ".

Definition prompt_tail : string :=
  "

    Respond in JSON format only with this structure:
    {
        " +:+ PyRepr.dq +:+ "classification" +:+ PyRepr.dq +:+ ": "
  +:+ PyRepr.dq +:+ "category_name" +:+ PyRepr.dq +:+ ",
        " +:+ PyRepr.dq +:+ "explanation" +:+ PyRepr.dq +:+ ": "
  +:+ PyRepr.dq +:+ "brief explanation" +:+ PyRepr.dq +:+ ",
        " +:+ PyRepr.dq +:+ "suggested_rewrite" +:+ PyRepr.dq +:+ ": "
  +:+ PyRepr.dq +:+ "suggested rewritten requirement if needed, otherwise keep original"
  +:+ PyRepr.dq +:+ "
    }

    Rules:
    - Functional: Describes what the system should do (features, behaviors)
    - Non-Functional: Describes how the system should behave (performance, security, usability)
    - Domain: Specific to the business/industry domain
    - Inverse: Describes what the system should NOT do or restrictions
    ".

(** No key in the environment. *)
Definition missing_key_env : env :=
  {| gemini := MissingKey; time_time := fun n => Z.of_nat n |}.

(** The model gives an object with the classification only. *)
Definition misshaped_env : env := steady_env (ReplyText only_classification).

(** What the answer of the login example decodes to. *)
Definition login_result : value :=
  VDict [("classification", VStr "Functional");
         ("explanation", VStr "Describes a feature");
         ("suggested_rewrite", VStr login_text)].

(** The session after the login example. *)
Definition after_login : session_state :=
  session_after Json.loads login_env (ChatInput login_text) fresh_session.

(** * Properties *)

(** ** The Python operations on small inputs *)

Example lower_label :
  PyStr.lower "Non-Functional Requirement" = "non-functional requirement".
Proof. reflexivity. Qed.

Example replace_spaces :
  PyStr.replace "non-functional  requirement" " " "_" = "non-functional__requirement".
Proof. reflexivity. Qed.

Example replace_does_not_overlap : PyStr.replace "aaaaa" "aa" "b" = "bba".
Proof. reflexivity. Qed.

Example replace_empty_pattern : PyStr.replace "abc" EmptyString "-" = "-a-b-c-".
Proof. reflexivity. Qed.

Example strip_both_ends : PyStr.strip "  a b
 " = "a b".
Proof. reflexivity. Qed.

Example slice_of_twelve :
  slice_from (-10) [1; 2; 3; 4; 5; 6; 7; 8; 9; 10; 11; 12]
  = [3; 4; 5; 6; 7; 8; 9; 10; 11; 12].
Proof. reflexivity. Qed.

Example slice_of_three : slice_from (-10) [1; 2; 3] = [1; 2; 3].
Proof. reflexivity. Qed.

Example loads_login_response :
  Json.loads (strip_fences login_response)
  = Some (VDict [("classification", VStr "Functional");
                 ("explanation", VStr "Describes a feature");
                 ("suggested_rewrite", VStr login_text)]).
Proof. vm_compute. reflexivity. Qed.

Example loads_nested :
  Json.loads "[1, -2.5e3, null, true, {}, [ ]]"
  = Some (VList [VInt 1; VFloat "-2.5e3"; VNone; VBool true; VDict []; VList []]).
Proof. vm_compute. reflexivity. Qed.

Example loads_trailing_comma : Json.loads "[1,]" = None.
Proof. vm_compute. reflexivity. Qed.

Example loads_leading_zero : Json.loads "01" = None.
Proof. vm_compute. reflexivity. Qed.

Example loads_prose : Json.loads "Sure, here is the classification" = None.
Proof. vm_compute. reflexivity. Qed.

Example str_of_values :
  PyRepr.str (VList [VInt (-12); VStr "it's"; VNone; VDict [("k", VBool false)]])
  = "[-12, " +:+ quoted "it's" +:+ ", None, {'k': False}]".
Proof. vm_compute. reflexivity. Qed.

(** ** Strings *)

#[local] Arguments String.append !_ _ / : simpl nomatch.

Section StringFacts.

Implicit Types (s r a b sub pat : string) (c : ascii).

Lemma append_assoc3 a b r : (a +:+ b) +:+ r = a +:+ (b +:+ r).
Proof. induction a as [|c a IH]; simpl; [reflexivity | f_equal; exact IH]. Qed.

Lemma append_empty_r a : a +:+ EmptyString = a.
Proof. induction a as [|c a IH]; simpl; [reflexivity | f_equal; exact IH]. Qed.

Lemma prefix_cons c a d s :
  String.prefix (String c a) (String d s) = true <-> c = d /\ String.prefix a s = true.
Proof.
  simpl. destruct (ascii_dec c d) as [->|Hne]; split; intros H.
  - now split.
  - now destruct H.
  - discriminate.
  - destruct H as [H _]. contradiction.
Qed.

Lemma prefix_empty s : String.prefix EmptyString s = true.
Proof. destruct s; reflexivity. Qed.

(** [prefix a s] says that [s] starts with [a]. *)
Lemma prefix_spec a s : String.prefix a s = true <-> exists r, s = a +:+ r.
Proof.
  revert s. induction a as [|c a IH]; intros s.
  - split; [intros _; now exists s | intros _; apply prefix_empty].
  - destruct s as [|d s].
    + split; [discriminate | intros [r Hr]; discriminate].
    + rewrite prefix_cons, IH. split.
      * intros [-> [r ->]]. now exists r.
      * intros [r Hr]. simpl in Hr. injection Hr as -> ->. split; eauto.
Qed.

(** [contains sub s] says that [sub] occurs somewhere in [s]. *)
Lemma contains_spec sub s :
  PyStr.contains sub s = true <-> exists l r, s = l +:+ sub +:+ r.
Proof.
  induction s as [|d s IH].
  - cbn [PyStr.contains]. rewrite orb_false_r, prefix_spec. split.
    + intros [r Hr]. now exists EmptyString, r.
    + intros [l [r Hr]]. destruct l; simpl in Hr; [eauto | discriminate].
  - cbn [PyStr.contains]. rewrite orb_true_iff, IH, prefix_spec. split.
    + intros [[r Hr] | [l [r Hr]]].
      * now exists EmptyString, r.
      * exists (String d l), r. simpl. now rewrite Hr.
    + intros [l [r Hr]]. destruct l as [|c l]; simpl in Hr.
      * left. eauto.
      * right. injection Hr as _ ->. eauto.
Qed.

(** A text that holds [a +:+ b] holds [b]. *)
Lemma contains_app_r a b s :
  PyStr.contains (a +:+ b) s = true -> PyStr.contains b s = true.
Proof.
  rewrite !contains_spec. intros [l [r ->]].
  exists (l +:+ a), r. now rewrite !append_assoc3.
Qed.

Lemma drop_append a r : PyStr.drop (String.length a) (a +:+ r) = r.
Proof. induction a as [|c a IH]; simpl; [now destruct r | exact IH]. Qed.

End StringFacts.

(** ** The categoriser *)

(** The key is always one of the four. *)
Lemma category_key_of_cases category :
  category_key_of category = "functional"
  \/ category_key_of category = "non_functional"
  \/ category_key_of category = "domain"
  \/ category_key_of category = "inverse".
Proof.
  unfold category_key_of.
  repeat match goal with |- context [if ?b then _ else _] => destruct b end; tauto.
Qed.

Lemma category_key_of_in_keys category : category_key_of category ∈ category_keys.
Proof.
  unfold category_keys.
  destruct (category_key_of_cases category) as [-> | [-> | [-> | ->]]]; set_solver.
Qed.

(** The second test of the chain can only succeed on a text on which the
    first one already has: both markers end in "functional". *)
Lemma category_key_of_never_non_functional category :
  category_key_of category <> "non_functional".
Proof.
  unfold category_key_of.
  destruct (PyStr.contains "functional" category) eqn:Hf; [discriminate |].
  destruct (PyStr.contains "non_functional" category) eqn:H1.
  { apply (contains_app_r "non_" "functional") in H1. congruence. }
  destruct (PyStr.contains "non-functional" category) eqn:H2.
  { apply (contains_app_r "non-" "functional") in H2. congruence. }
  simpl.
  repeat match goal with |- context [if ?b then _ else _] => destruct b end; discriminate.
Qed.

(** C1.  The labels "Functional Requirement", "Domain Requirement",
    "Inverse Requirement" and "banana" go to functional, domain, inverse and
    functional, as the specification says.  "Non-Functional Requirement"
    goes to functional, not to non_functional, and no label at all goes to
    non_functional: of the four keys only three are reachable. *)
Theorem C1_resolve_category_labels :
  resolve_category "Functional Requirement" = "functional"
  /\ resolve_category "Non-Functional Requirement" = "functional"
  /\ resolve_category "Domain Requirement" = "domain"
  /\ resolve_category "Inverse Requirement" = "inverse"
  /\ resolve_category "banana" = "functional"
  /\ (forall label, resolve_category label <> "non_functional").
Proof.
  repeat split; try reflexivity.
  intros label. apply category_key_of_never_non_functional.
Qed.

(** ** Running the script, piece by piece *)

Lemma category_keys_cases key :
  key ∈ category_keys ->
  key = "functional" \/ key = "non_functional" \/ key = "domain" \/ key = "inverse".
Proof.
  unfold category_keys. rewrite !elem_of_union, !elem_of_singleton. tauto.
Qed.

Section Runs.

Variable loads : string -> option value.
Implicit Types (e : env) (w : world) (s : session_state) (t : trigger).

Lemma well_formed_lookup s key :
  well_formed s -> key ∈ category_keys -> exists l, requirements s !! key = Some l.
Proof.
  intros Hwf Hin. unfold well_formed in Hwf. rewrite <- Hwf in Hin.
  apply elem_of_dom in Hin. destruct Hin as [l Hl]. eauto.
Qed.

Lemma fresh_session_well_formed : well_formed fresh_session.
Proof.
  unfold well_formed, fresh_session, empty_requirements, category_keys. simpl.
  rewrite !dom_insert_L, dom_empty_L. set_solver.
Qed.

Lemma add_page_nil w : add_page w [] = w.
Proof. destruct w. unfold add_page. simpl. now rewrite app_nil_r. Qed.

Lemma add_page_app w l1 l2 : add_page (add_page w l1) l2 = add_page w (l1 ++ l2).
Proof. unfold add_page. simpl. now rewrite app_assoc. Qed.

Lemma count_run e w key l :
  requirements (session w) !! key = Some l ->
  count key e w = (inr (length l), w).
Proof. intros H. unfold count, bind, get_session. now rewrite H. Qed.

Lemma tally_lookup s key l : requirements s !! key = Some l -> tally s key = length l.
Proof. intros H. unfold tally. now rewrite H. Qed.

Lemma count_well_formed e w key :
  well_formed (session w) -> key ∈ category_keys ->
  count key e w = (inr (tally (session w) key), w).
Proof.
  intros Hwf Hin. destruct (well_formed_lookup _ _ Hwf Hin) as [l Hl].
  rewrite (count_run e w key l Hl). now rewrite (tally_lookup _ _ _ Hl).
Qed.

Lemma in_keys_functional : "functional" ∈ category_keys.
Proof. unfold category_keys. set_solver. Qed.
Lemma in_keys_non_functional : "non_functional" ∈ category_keys.
Proof. unfold category_keys. set_solver. Qed.
Lemma in_keys_domain : "domain" ∈ category_keys.
Proof. unfold category_keys. set_solver. Qed.
Lemma in_keys_inverse : "inverse" ∈ category_keys.
Proof. unfold category_keys. set_solver. Qed.

(** The four metrics and the button. *)
Lemma sidebar_metrics_run e w (k : script unit) :
  well_formed (session w) ->
  (n <- count "functional" ;; emit (Metric "Functional" n) ;;
   n <- count "non_functional" ;; emit (Metric "Non-Functional" n) ;;
   n <- count "domain" ;; emit (Metric "Domain" n) ;;
   n <- count "inverse" ;; emit (Metric "Inverse" n) ;;
   emit (Button "Clear All Requirements") ;; k) e w
  = k e (add_page w (sidebar_elements (session w))).
Proof.
  intros Hwf. unfold bind.
  rewrite (count_well_formed e w) by (assumption || apply in_keys_functional).
  cbn [emit].
  rewrite count_well_formed by (assumption || apply in_keys_non_functional).
  cbn [emit session page clock].
  rewrite count_well_formed by (assumption || apply in_keys_domain).
  cbn [emit session page clock].
  rewrite count_well_formed by (assumption || apply in_keys_inverse).
  cbn [emit session page clock].
  unfold add_page, sidebar_elements. rewrite <- !app_assoc. simpl.
  destruct (k e _) as [[sg|[]] w']; reflexivity.
Qed.

(** The sidebar when its button is not the one pressed. *)
Lemma sidebar_run e w t :
  well_formed (session w) -> t <> ClickClearAll ->
  sidebar t e w = (inr tt, add_page w (sidebar_elements (session w))).
Proof.
  intros Hwf Ht. unfold sidebar. rewrite sidebar_metrics_run by assumption.
  destruct t; try reflexivity. contradiction.
Qed.

(** The sidebar when its button is pressed: both attributes are reset
    and the run starts over. *)
Lemma sidebar_clear_run e w :
  well_formed (session w) ->
  sidebar ClickClearAll e w
  = (inl Rerun,
     {| session := fresh_session;
        page := page w ++ sidebar_elements (session w);
        clock := clock w |}).
Proof.
  intros Hwf. unfold sidebar. rewrite sidebar_metrics_run by assumption.
  reflexivity.
Qed.

Lemma for_each_emit {A} (f : A -> element) (l : list A) e w :
  for_each l (fun x => emit (f x)) e w = (inr tt, add_page w (map f l)).
Proof.
  revert w. induction l as [|x l IH]; intros w.
  - simpl. now rewrite add_page_nil.
  - cbn [for_each map]. unfold bind. cbn [emit]. rewrite IH.
    unfold add_page. cbn [session page clock]. now rewrite <- app_assoc.
Qed.

Lemma display_run e w :
  display e w
  = (inr tt, add_page w (map chat_element (slice_from (-10) (messages (session w))))).
Proof.
  unfold display, bind. cbn [get_session].
  exact (for_each_emit chat_element _ e w).
Qed.

(** The second clear button when it is not the one pressed. *)
Lemma clear_chat_run e w t :
  t <> ClickClearChat ->
  clear_chat t e w = (inr tt, add_page w (clear_chat_button (session w))).
Proof.
  intros Ht. unfold clear_chat, clear_chat_button, bind. cbn [get_session].
  destruct (messages (session w)) as [|m l].
  - cbn [ret]. now rewrite add_page_nil.
  - cbn [emit]. destruct t; try reflexivity. contradiction.
Qed.

(** The second clear button when it is pressed. *)
Lemma clear_chat_clear_run e w :
  messages (session w) <> [] ->
  clear_chat ClickClearChat e w
  = (inl Rerun,
     {| session := fresh_session;
        page := page w ++ [Button "Clear Chat"];
        clock := clock w |}).
Proof.
  intros Hne. unfold clear_chat, bind. cbn [get_session].
  destruct (messages (session w)) as [|m l]; [contradiction | reflexivity].
Qed.

Lemma configure_gemini_ready e w model :
  gemini e = Ready model -> configure_gemini e w = (inr model, w).
Proof. intros H. unfold configure_gemini. now rewrite H. Qed.

Lemma chat_no_input model e w t :
  (forall text, t <> ChatInput text) -> chat loads t model e w = (inr tt, w).
Proof. intros H. destruct t; try reflexivity. now destruct (H user_input). Qed.

(** A run without an event renders [page_of] and changes nothing else. *)
Lemma app_no_event_run e w model :
  gemini e = Ready model -> well_formed (session w) ->
  app loads NoEvent e w = (inr tt, add_page w (page_of (session w))).
Proof.
  intros Hg Hwf. unfold app, bind.
  rewrite (configure_gemini_ready e w model Hg).
  rewrite sidebar_run by (assumption || discriminate).
  rewrite chat_no_input by discriminate.
  rewrite display_run.
  rewrite clear_chat_run by discriminate.
  rewrite !add_page_app. reflexivity.
Qed.

Lemma rendering_page_of e s model :
  gemini e = Ready model -> well_formed s ->
  rendering loads e s = page_of s.
Proof.
  intros Hg Hwf. unfold rendering.
  rewrite (app_no_event_run e _ model Hg) by exact Hwf. reflexivity.
Qed.

End Runs.

(** ** The display *)

Lemma slice_from_last_ten {A} (l : list A) :
  slice_from (-10) l = drop (length l - 10) l.
Proof. unfold slice_from. simpl. f_equal. lia. Qed.

(** C7.  The display loop shows the last min(10, length) messages of the
    log, in the order of the log, and leaves the session (so the whole log)
    as it was. *)
Theorem C7_display_shows_last_ten e w :
  let log := messages (session w) in
  let shown := slice_from (-10) log in
  display e w = (inr tt, add_page w (map chat_element shown))
  /\ length shown = Nat.min 10 (length log)
  /\ log = take (length log - 10) log ++ shown
  /\ session (snd (display e w)) = session w
  /\ page (snd (display e w)) = page w ++ map chat_element shown.
Proof.
  intros log shown. rewrite display_run. fold log. fold shown.
  assert (Hshown : shown = drop (length log - 10) log).
  { unfold shown. exact (slice_from_last_ten log). }
  repeat split.
  - rewrite Hshown, length_drop. lia.
  - rewrite Hshown. now rewrite take_drop.
Qed.

(** ** The clear buttons *)

Section Clear.

Variable loads : string -> option value.
Implicit Types (e : env) (w : world) (s : session_state).

Lemma app_clear_all_run e w model :
  gemini e = Ready model -> well_formed (session w) ->
  app loads ClickClearAll e w
  = (inl Rerun,
     {| session := fresh_session;
        page := page w ++ sidebar_elements (session w);
        clock := clock w |}).
Proof.
  intros Hg Hwf. unfold app, bind.
  rewrite (configure_gemini_ready e _ model Hg).
  now rewrite sidebar_clear_run by exact Hwf.
Qed.

Lemma app_clear_chat_run e w model :
  gemini e = Ready model -> well_formed (session w) ->
  messages (session w) <> [] ->
  app loads ClickClearChat e w
  = (inl Rerun,
     {| session := fresh_session;
        page := page w ++ page_of (session w);
        clock := clock w |}).
Proof.
  intros Hg Hwf Hne. unfold app, bind.
  rewrite (configure_gemini_ready e _ model Hg).
  rewrite sidebar_run by (assumption || discriminate).
  rewrite chat_no_input by discriminate.
  rewrite display_run.
  rewrite clear_chat_clear_run by exact Hne.
  unfold page_of, clear_chat_button, add_page. cbn [session page clock].
  destruct (messages (session w)) as [|m l]; [contradiction|].
  now rewrite <- !app_assoc.
Qed.

Lemma handle_clear_all e s model :
  gemini e = Ready model -> well_formed s ->
  handle loads e ClickClearAll s
  = (inr tt,
     {| session := fresh_session;
        page := sidebar_elements s ++ page_of fresh_session;
        clock := 0 |}).
Proof.
  intros Hg Hwf. unfold handle.
  rewrite (app_clear_all_run e _ model Hg) by exact Hwf.
  rewrite (app_no_event_run loads e _ model Hg) by apply fresh_session_well_formed.
  reflexivity.
Qed.

Lemma handle_clear_chat e s model :
  gemini e = Ready model -> well_formed s -> messages s <> [] ->
  handle loads e ClickClearChat s
  = (inr tt,
     {| session := fresh_session;
        page := page_of s ++ page_of fresh_session;
        clock := 0 |}).
Proof.
  intros Hg Hwf Hne. unfold handle.
  rewrite (app_clear_chat_run e _ model Hg) by assumption.
  rewrite (app_no_event_run loads e _ model Hg) by apply fresh_session_well_formed.
  reflexivity.
Qed.

End Clear.

(** C5.  When a clear button is pressed, the event is handled without
    an error; afterwards the log is empty and each of the four keys holds
    the empty list; and the page shows, in order, elements rendered from
    the state before the press and then the complete rendering of the
    cleared state: nothing on it was rendered from a state in which only
    one of the two had been reset. *)
Theorem C5_clear_resets_store_and_log_together loads e t s :
  clear_fires e t s ->
  fst (handle loads e t s) = inr tt
  /\ messages (session_after loads e t s) = []
  /\ (forall key, key ∈ category_keys ->
        requirements (session_after loads e t s) !! key = Some [])
  /\ (forall key, key ∉ category_keys ->
        requirements (session_after loads e t s) !! key = None)
  /\ exists before,
       before `prefix_of` rendering loads e s
       /\ page_after loads e t s = before ++ rendering loads e fresh_session.
Proof.
  intros [[model Hg] [Hwf Ht]].
  assert (Hs : fst (handle loads e t s) = inr tt
               /\ session_after loads e t s = fresh_session
               /\ exists before, before `prefix_of` page_of s
                    /\ page_after loads e t s = before ++ page_of fresh_session).
  { unfold session_after, page_after.
    destruct Ht as [-> | [-> Hne]].
    - rewrite (handle_clear_all loads e s model Hg Hwf). cbn [fst snd session page].
      repeat split. exists (sidebar_elements s). split; [|reflexivity].
      unfold page_of. now eexists.
    - rewrite (handle_clear_chat loads e s model Hg Hwf Hne). cbn [fst snd session page].
      repeat split. exists (page_of s). split; [reflexivity | reflexivity]. }
  destruct Hs as [Hr [Hsess [before [Hpre Hpage]]]].
  rewrite (rendering_page_of loads e s model Hg Hwf).
  rewrite (rendering_page_of loads e _ model Hg fresh_session_well_formed).
  rewrite Hsess. repeat split.
  - exact Hr.
  - intros key Hin.
    destruct (category_keys_cases key Hin) as [-> | [-> | [-> | ->]]]; reflexivity.
  - intros key Hnot. apply not_elem_of_dom.
    pose proof fresh_session_well_formed as Hf. unfold well_formed in Hf.
    now rewrite Hf.
  - exists before. now split.
Qed.

(** ** The keys of the store *)

Create HintDb keeps discriminated.

Section Keys.

Variable loads : string -> option value.

Lemma keeps_ret {A} (a : A) : keeps_keys (ret a).
Proof. intros e w Hwf. exact Hwf. Qed.

Lemma keeps_signal_now {A} sg : keeps_keys (@signal_now A sg).
Proof. intros e w Hwf. exact Hwf. Qed.

Lemma keeps_lift {A} (r : exn + A) : keeps_keys (lift r).
Proof. destruct r; [apply keeps_signal_now | apply keeps_ret]. Qed.

Lemma keeps_emit x : keeps_keys (emit x).
Proof. intros e w Hwf. exact Hwf. Qed.

Lemma keeps_get_session : keeps_keys get_session.
Proof. intros e w Hwf. exact Hwf. Qed.

Lemma keeps_now : keeps_keys now.
Proof. intros e w Hwf. exact Hwf. Qed.

Lemma keeps_bind {A B} (c : script A) (k : A -> script B) :
  keeps_keys c -> (forall a, keeps_keys (k a)) -> keeps_keys (bind c k).
Proof.
  intros Hc Hk e w Hwf. unfold bind. specialize (Hc e w Hwf).
  destruct (c e w) as [[sg | a] w']; cbn [snd] in *; [exact Hc | now apply Hk].
Qed.

Lemma keeps_try_except {A} (body : script A) (handler : exn -> script A) :
  keeps_keys body -> (forall x, keeps_keys (handler x)) ->
  keeps_keys (try_except body handler).
Proof.
  intros Hb Hh e w Hwf. unfold try_except. specialize (Hb e w Hwf).
  destruct (body e w) as [[[ | | x] | a] w']; cbn [snd] in *;
    try exact Hb. now apply Hh.
Qed.

Lemma keeps_set_messages l : keeps_keys (set_messages l).
Proof. intros e w Hwf. exact Hwf. Qed.

Lemma keeps_append_message m : keeps_keys (append_message m).
Proof. intros e w Hwf. exact Hwf. Qed.

Lemma keeps_set_requirements r :
  dom r = category_keys -> keeps_keys (set_requirements r).
Proof. intros Hr e w Hwf. exact Hr. Qed.

Lemma empty_requirements_dom : dom empty_requirements = category_keys.
Proof. exact fresh_session_well_formed. Qed.

Lemma keeps_count key : keeps_keys (count key).
Proof.
  intros e w Hwf. unfold count, bind, get_session.
  destruct (requirements (session w) !! key); exact Hwf.
Qed.

(** Appending to the list under a key needs the key to be there, and
    leaves the set of keys as it is. *)
Lemma keeps_append_requirement key entry : keeps_keys (append_requirement key entry).
Proof.
  intros e w Hwf. unfold append_requirement, bind, get_session.
  destruct (requirements (session w) !! key) as [l|] eqn:Hl; [|exact Hwf].
  cbn. unfold well_formed in *. cbn [requirements].
  rewrite dom_insert_L, <- Hwf.
  apply subseteq_union_1_L, singleton_subseteq_l, elem_of_dom. eauto.
Qed.

Lemma keeps_for_each {A} (l : list A) (f : A -> script unit) :
  (forall x, keeps_keys (f x)) -> keeps_keys (for_each l f).
Proof.
  intros Hf. induction l as [|x l IH]; simpl.
  - apply keeps_ret.
  - apply keeps_bind; [apply Hf | intros _; exact IH].
Qed.

Hint Resolve keeps_ret keeps_signal_now keeps_lift keeps_emit keeps_get_session
  keeps_now keeps_set_messages keeps_append_message keeps_count
  keeps_append_requirement empty_requirements_dom : keeps.

Ltac keeps_step :=
  cbv zeta;
  first
    [ solve [auto with keeps]
    | apply keeps_try_except; [|intros ?]
    | apply keeps_for_each; intros ?
    | apply keeps_set_requirements
    | apply keeps_bind; [|intros ?] ].

Lemma keeps_configure_gemini : keeps_keys configure_gemini.
Proof. intros e w Hwf. unfold configure_gemini. destruct (gemini e); exact Hwf. Qed.

Lemma keeps_classify_requirement model text :
  keeps_keys (classify_requirement loads model text).
Proof. unfold classify_requirement. repeat keeps_step. Qed.

Lemma keeps_categorize cr : keeps_keys (categorize cr).
Proof. unfold categorize. repeat keeps_step. Qed.

Lemma keeps_add_requirement text cr : keeps_keys (add_requirement text cr).
Proof. unfold add_requirement. pose proof keeps_categorize. repeat keeps_step. Qed.

Lemma keeps_sidebar t : keeps_keys (sidebar t).
Proof.
  unfold sidebar. repeat keeps_step.
  destruct t; unfold st_rerun; repeat keeps_step.
Qed.

Lemma keeps_chat t model : keeps_keys (chat loads t model).
Proof.
  unfold chat. destruct t; try apply keeps_ret.
  destruct (String.eqb user_input EmptyString); [apply keeps_ret|].
  pose proof keeps_classify_requirement. pose proof keeps_add_requirement.
  unfold st_rerun. repeat keeps_step.
Qed.

Lemma keeps_display : keeps_keys display.
Proof. unfold display. repeat keeps_step. Qed.

Lemma keeps_clear_chat t : keeps_keys (clear_chat t).
Proof.
  unfold clear_chat. apply keeps_bind; [apply keeps_get_session | intros s].
  destruct (messages s); [apply keeps_ret|].
  apply keeps_bind; [apply keeps_emit | intros _].
  destruct t; unfold st_rerun; repeat keeps_step.
Qed.

Lemma keeps_app t : keeps_keys (app loads t).
Proof.
  unfold app.
  pose proof keeps_configure_gemini. pose proof keeps_sidebar.
  pose proof keeps_chat. pose proof keeps_display. pose proof keeps_clear_chat.
  repeat keeps_step.
Qed.

(** Handling an event keeps the keys, whether the run ends normally, stops,
    raises or starts over. *)
Lemma session_after_well_formed e t s :
  well_formed s -> well_formed (session_after loads e t s).
Proof.
  intros Hwf. unfold session_after, handle.
  pose proof (keeps_app t e {| session := s; page := []; clock := 0 |} Hwf) as H1.
  destruct (app loads t e _) as [[[ | | x] | []] w1]; cbn [snd] in *; try exact H1.
  exact (keeps_app NoEvent e w1 H1).
Qed.

Lemma reachable_well_formed s : reachable loads s -> well_formed s.
Proof.
  induction 1 as [|e t s Hs IH].
  - apply fresh_session_well_formed.
  - now apply session_after_well_formed.
Qed.

End Keys.

(** C6.  In every state a session can reach - the fresh one, and the one
    after any event handled from a reachable state, however the handling
    ends - the store has exactly the keys functional, non_functional, domain
    and inverse, each bound to a list. *)
Theorem C6_store_keeps_its_four_keys loads s :
  reachable loads s ->
  dom (requirements s) = category_keys
  /\ (forall key, key ∈ category_keys -> exists l, requirements s !! key = Some l)
  /\ (forall key, key ∉ category_keys -> requirements s !! key = None).
Proof.
  intros Hr. pose proof (reachable_well_formed loads s Hr) as Hwf.
  split; [exact Hwf | split].
  - intros key Hin. now apply well_formed_lookup.
  - intros key Hnot. apply not_elem_of_dom. unfold well_formed in Hwf.
    now rewrite Hwf.
Qed.

(** ** Classifying and recording a submission *)

Section Submission.

Variable loads : string -> option value.
Implicit Types (e : env) (w : world) (s : session_state) (model : string -> reply).

(** The three ways [classify_requirement] goes. *)
Lemma classify_reply_error model text e w :
  model (prompt text) = ReplyError ->
  classify_requirement loads model text e w
  = (inr (fallback text),
     add_page w [ErrorBox "Error classifying requirement: " (Some ApiError)]).
Proof.
  intros Hm. unfold classify_requirement, try_except, bind, generate.
  now rewrite Hm.
Qed.

Lemma classify_decode_error model text e w txt :
  model (prompt text) = ReplyText txt ->
  loads (strip_fences txt) = None ->
  classify_requirement loads model text e w
  = (inr (fallback text),
     add_page w [ErrorBox "Error classifying requirement: " (Some JSONDecodeError)]).
Proof.
  intros Hm Hl. unfold classify_requirement, try_except, bind, generate, json_loads.
  rewrite Hm. cbn [lift ret]. now rewrite Hl.
Qed.

Lemma classify_decoded model text e w txt v :
  model (prompt text) = ReplyText txt ->
  loads (strip_fences txt) = Some v ->
  classify_requirement loads model text e w = (inr v, w).
Proof.
  intros Hm Hl. unfold classify_requirement, try_except, bind, generate, json_loads.
  rewrite Hm. cbn [lift ret]. now rewrite Hl.
Qed.

(** The classifier always hands back a value: it never raises, stops or
    asks for a rerun. *)
Lemma classify_requirement_returns model text e w :
  exists v w', classify_requirement loads model text e w = (inr v, w').
Proof.
  destruct (model (prompt text)) as [txt|] eqn:Hm.
  - destruct (loads (strip_fences txt)) as [v|] eqn:Hl.
    + exists v, w. exact (classify_decoded model text e w txt v Hm Hl).
    + do 2 eexists. exact (classify_decode_error model text e w txt Hm Hl).
  - do 2 eexists. exact (classify_reply_error model text e w Hm).
Qed.

(** On a result whose classification is a string, lines 94-104 return the
    key of that label and touch nothing. *)
Lemma categorize_run cr label e w :
  subscript cr "classification" = inr (VStr label) ->
  categorize cr e w = (inr (resolve_category label), w).
Proof. intros H. unfold categorize, bind. now rewrite H. Qed.

Lemma add_requirement_run text cr label rw ex old e w :
  subscript cr "classification" = inr (VStr label) ->
  subscript cr "suggested_rewrite" = inr rw ->
  subscript cr "explanation" = inr ex ->
  requirements (session w) !! resolve_category label = Some old ->
  add_requirement text cr e w
  = (inr tt,
     {| session :=
          {| messages := messages (session w);
             requirements :=
               <[resolve_category label :=
                   old ++ [{| original := text; rewritten := rw; explanation := ex;
                              entry_timestamp := time_time e (clock w) |}]]>
                 (requirements (session w)) |};
        page := page w;
        clock := S (clock w) |}).
Proof.
  intros Hc Hr He Ho. unfold add_requirement, bind.
  rewrite (categorize_run cr label e w Hc), Hr, He.
  cbn [lift ret now]. unfold append_requirement, bind. cbn [get_session session].
  rewrite Ho. reflexivity.
Qed.

(** A submission whose classification result has the three fields, the
    first a string: the user turn, the entry under the key of the label,
    the assistant turn, and the request to run again. *)
Lemma chat_submit_run model text cr label rw ex old notices e w :
  text <> EmptyString ->
  (forall w', classify_requirement loads model text e w' = (inr cr, add_page w' notices)) ->
  subscript cr "classification" = inr (VStr label) ->
  subscript cr "suggested_rewrite" = inr rw ->
  subscript cr "explanation" = inr ex ->
  requirements (session w) !! resolve_category label = Some old ->
  chat loads (ChatInput text) model e w
  = (inl Rerun,
     {| session :=
          {| messages :=
               messages (session w)
               ++ [user_turn text (time_time e (clock w));
                   assistant_turn (VStr label) ex rw (time_time e (S (S (clock w))))];
             requirements :=
               <[resolve_category label :=
                   old ++ [entry_of text rw ex (time_time e (S (clock w)))]]>
                 (requirements (session w)) |};
        page := page w ++ notices;
        clock := S (S (S (clock w))) |}).
Proof.
  intros Hne Hcl Hc Hr He Ho. unfold chat.
  apply String.eqb_neq in Hne. rewrite Hne.
  unfold bind at 1. cbn [now].
  unfold bind at 1. cbn [append_message set_messages bind get_session put_session session page clock].
  unfold bind at 1. rewrite Hcl.
  unfold bind at 1.
  rewrite (add_requirement_run text cr label rw ex old) by assumption.
  unfold bind. rewrite Hc, He, Hr.
  cbn [lift ret now append_message set_messages get_session put_session st_rerun
       signal_now session page clock messages requirements add_page bind].
  unfold user_turn, assistant_turn, entry_of. rewrite <- app_assoc. reflexivity.
Qed.

Lemma after_submission_well_formed e s text label rw ex old :
  well_formed s ->
  requirements s !! resolve_category label = Some old ->
  well_formed (after_submission e s text label rw ex old).
Proof.
  unfold well_formed, after_submission. cbn [requirements]. intros Hwf Ho.
  rewrite dom_insert_L, <- Hwf.
  apply subseteq_union_1_L, singleton_subseteq_l, elem_of_dom. eauto.
Qed.

(** The whole handling of such a submission: the first run records it and
    asks to run again, the second renders the new state. *)
Lemma handle_submit model text cr label rw ex old notices e s :
  gemini e = Ready model ->
  well_formed s ->
  text <> EmptyString ->
  (forall w', classify_requirement loads model text e w' = (inr cr, add_page w' notices)) ->
  subscript cr "classification" = inr (VStr label) ->
  subscript cr "suggested_rewrite" = inr rw ->
  subscript cr "explanation" = inr ex ->
  requirements s !! resolve_category label = Some old ->
  handle loads e (ChatInput text) s
  = (inr tt,
     {| session := after_submission e s text label rw ex old;
        page := sidebar_elements s ++ notices
                ++ page_of (after_submission e s text label rw ex old);
        clock := 3 |}).
Proof.
  intros Hg Hwf Hne Hcl Hc Hr He Ho. unfold handle.
  unfold app at 1. unfold bind at 1.
  rewrite (configure_gemini_ready e _ model Hg).
  unfold bind at 1. rewrite sidebar_run by (assumption || discriminate).
  unfold bind at 1.
  rewrite (chat_submit_run model text cr label rw ex old notices) by assumption.
  cbn [add_page session page clock app_nil_l].
  fold (after_submission e s text label rw ex old).
  rewrite (app_no_event_run loads e _ model Hg)
    by (apply after_submission_well_formed; assumption).
  unfold add_page. cbn [session page clock]. simpl app.
  now rewrite <- !app_assoc.
Qed.

End Submission.

(** What a recorded submission does to the store and to the counts. *)
Lemma after_submission_store e s text label rw ex old :
  requirements s !! resolve_category label = Some old ->
  let s' := after_submission e s text label rw ex old in
  requirements s' !! resolve_category label
  = Some (old ++ [entry_of text rw ex (time_time e 1)])
  /\ (forall key, key <> resolve_category label ->
        requirements s' !! key = requirements s !! key)
  /\ tally s' (resolve_category label) = S (tally s (resolve_category label))
  /\ (forall key, key <> resolve_category label -> tally s' key = tally s key).
Proof.
  intros Ho s'. unfold s', after_submission, tally. cbn [requirements].
  rewrite lookup_insert_eq, Ho. cbn [default].
  split; [reflexivity | split; [| split]].
  - intros key Hk. now rewrite lookup_insert_ne by congruence.
  - unfold id. rewrite length_app. simpl. lia.
  - intros key Hk. now rewrite lookup_insert_ne by congruence.
Qed.

(** C4.  From any state with the four keys, submitting "The system shall
    allow login via email" when the classifier's answer decodes to
    classification "Functional", explanation "Describes a feature" and the
    same text as rewrite: the event is handled without error; the list
    under functional gets one new entry at its end, whose original text is
    the input; the other keys keep their lists; the log gets two turns at
    its end, user then assistant; the functional count goes up by one and
    the other counts stay. *)
Theorem C4_login_submission_is_recorded loads e s model txt :
  let text := "The system shall allow login via email" in
  let s' := session_after loads e (ChatInput text) s in
  gemini e = Ready model ->
  well_formed s ->
  model (prompt text) = ReplyText txt ->
  loads (strip_fences txt)
  = Some (VDict [("classification", VStr "Functional");
                 ("explanation", VStr "Describes a feature");
                 ("suggested_rewrite", VStr text)]) ->
  fst (handle loads e (ChatInput text) s) = inr tt
  /\ (exists old entry,
        requirements s !! "functional" = Some old
        /\ requirements s' !! "functional" = Some (old ++ [entry])
        /\ original entry = text)
  /\ (forall key, key <> "functional" ->
        requirements s' !! key = requirements s !! key)
  /\ (exists u a,
        messages s' = messages s ++ [u; a]
        /\ role u = "user" /\ content u = text /\ role a = "assistant")
  /\ tally s' "functional" = S (tally s "functional")
  /\ (forall key, key <> "functional" -> tally s' key = tally s key).
Proof.
  intros text s' Hg Hwf Hm Hl.
  destruct (well_formed_lookup s "functional" Hwf in_keys_functional) as [old Ho].
  set (cr := VDict [("classification", VStr "Functional");
                    ("explanation", VStr "Describes a feature");
                    ("suggested_rewrite", VStr text)]) in *.
  assert (Hh : handle loads e (ChatInput text) s
               = (inr tt,
                  {| session := after_submission e s text "Functional" (VStr text)
                                  (VStr "Describes a feature") old;
                     page := sidebar_elements s ++ []
                             ++ page_of (after_submission e s text "Functional"
                                           (VStr text) (VStr "Describes a feature") old);
                     clock := 3 |})).
  { apply (handle_submit loads model text cr); try assumption; try reflexivity.
    - discriminate.
    - intros w'. rewrite add_page_nil.
      exact (classify_decoded loads model text e w' txt cr Hm Hl). }
  unfold s', session_after. rewrite Hh. cbn [fst snd session].
  destruct (after_submission_store e s text "Functional" (VStr text)
              (VStr "Describes a feature") old Ho) as [H1 [H2 [H3 H4]]].
  change (resolve_category "Functional") with "functional" in *.
  repeat split.
  - exists old. eexists. split; [exact Ho | split; [exact H1 | reflexivity]].
  - exact H2.
  - do 2 eexists. split; [reflexivity | repeat split].
  - exact H3.
  - exact H4.
Qed.

(** C9.  When the classification of a submitted text fails - the call
    raises, or the cleaned response does not decode - so that the fallback
    with classification "Unknown" is produced, the entry built from the
    fallback is appended to the list under functional, through the default
    branch of the chain; the functional count goes up by one and the other
    keys keep their lists. *)
Theorem C9_failed_classification_goes_to_functional loads e s model text :
  let s' := session_after loads e (ChatInput text) s in
  gemini e = Ready model ->
  well_formed s ->
  text <> EmptyString ->
  (model (prompt text) = ReplyError
   \/ exists txt, model (prompt text) = ReplyText txt
                  /\ loads (strip_fences txt) = None) ->
  category_key_of "unknown" = "functional"
  /\ (exists old,
        requirements s !! "functional" = Some old
        /\ requirements s' !! "functional"
           = Some (old ++ [entry_of text (VStr text) (VStr "Failed to classify")
                             (time_time e 1)]))
  /\ (forall key, key <> "functional" ->
        requirements s' !! key = requirements s !! key)
  /\ tally s' "functional" = S (tally s "functional")
  /\ (forall key, key <> "functional" -> tally s' key = tally s key).
Proof.
  intros s' Hg Hwf Hne Hfail.
  destruct (well_formed_lookup s "functional" Hwf in_keys_functional) as [old Ho].
  assert (Hcl : exists notices, forall w',
             classify_requirement loads model text e w'
             = (inr (fallback text), add_page w' notices)).
  { destruct Hfail as [Hm | [txt [Hm Hl]]].
    - eexists. intros w'. now apply classify_reply_error.
    - eexists. intros w'. now apply (classify_decode_error loads model text e w' txt). }
  destruct Hcl as [notices Hcl].
  assert (Hh := handle_submit loads model text (fallback text) "Unknown"
                  (VStr text) (VStr "Failed to classify") old notices e s
                  Hg Hwf Hne Hcl eq_refl eq_refl eq_refl Ho).
  unfold s', session_after. rewrite Hh. cbn [snd session].
  destruct (after_submission_store e s text "Unknown" (VStr text)
              (VStr "Failed to classify") old Ho) as [H1 [H2 [H3 H4]]].
  change (resolve_category "Unknown") with "functional" in *.
  split; [reflexivity | split; [| split; [| split]]].
  - exists old. split; [exact Ho | exact H1].
  - exact H2.
  - exact H3.
  - exact H4.
Qed.

(** ** What the classifier hands on *)

(** C8.  On every classification result whose label is a string, lines
    94-104 return a key and do not raise; the key is [resolve_category] of
    the label, so it depends on the label alone; it is one of the four keys;
    and the world is left as it was. *)
Theorem C8_resolve_category_total_and_pure cr label e w :
  subscript cr "classification" = inr (VStr label) ->
  categorize cr e w = (inr (resolve_category label), w)
  /\ resolve_category label ∈ category_keys
  /\ (forall e' w', fst (categorize cr e' w') = fst (categorize cr e w)).
Proof.
  intros Hc. split; [now apply categorize_run | split].
  - apply category_key_of_in_keys.
  - intros e' w'. now rewrite !(categorize_run cr label) by exact Hc.
Qed.

(** C2.  The reply [{"classification": "Functional"}] decodes to an object
    without explanation and suggested_rewrite.  [classify_requirement]
    returns that object as it is, shows no error, and does not return the
    fallback. *)
Theorem C2_missing_fields_returned_as_decoded e w :
  let model := fun _ : string => ReplyText only_classification in
  Json.loads (strip_fences only_classification)
  = Some (VDict [("classification", VStr "Functional")])
  /\ classify_requirement Json.loads model login_text e w
     = (inr (VDict [("classification", VStr "Functional")]), w)
  /\ fst (classify_requirement Json.loads model login_text e w)
     <> inr (fallback login_text).
Proof.
  intros model.
  assert (Hl : Json.loads (strip_fences only_classification)
               = Some (VDict [("classification", VStr "Functional")]))
    by (vm_compute; reflexivity).
  assert (Hc := classify_decoded Json.loads model login_text e w
                  only_classification _ eq_refl Hl).
  split; [exact Hl | split; [exact Hc |]].
  rewrite Hc. discriminate.
Qed.

(** C3.  With the reply [{"classification": "Functional"}] the handling of
    a submission ends in a [KeyError] raised by [add_requirement]: the user
    turn is in the log, nothing is in the store, and no assistant turn is
    added.  A reply [[]] ends in a [TypeError], [{}] in a [KeyError], and a
    classification that is a number in an [AttributeError]. *)
Theorem C3_submission_raises_on_malformed_result :
  handle Json.loads (steady_env (ReplyText only_classification))
    (ChatInput login_text) fresh_session
  = (inl (Raise (KeyError "suggested_rewrite")),
     {| session := {| messages := [user_turn login_text 0];
                      requirements := empty_requirements |};
        page := sidebar_elements fresh_session;
        clock := 1 |})
  /\ fst (handle Json.loads (steady_env (ReplyText "[]"))
            (ChatInput login_text) fresh_session)
     = inl (Raise TypeError)
  /\ fst (handle Json.loads (steady_env (ReplyText "{}"))
            (ChatInput login_text) fresh_session)
     = inl (Raise (KeyError "classification"))
  /\ fst (handle Json.loads (steady_env (ReplyText numeric_classification))
            (ChatInput login_text) fresh_session)
     = inl (Raise AttributeError).
Proof. repeat split; vm_compute; reflexivity. Qed.

(** ** Line 79: the text given to the decoder *)

Section Cleaning.

Implicit Types (s r pat old new : string) (c : ascii).

Lemma length_append a b :
  String.length (a +:+ b) = String.length a + String.length b.
Proof. induction a as [|c a IH]; simpl; [reflexivity | now rewrite IH]. Qed.

(** Passing over [k] characters is dropping them. *)
Lemma replace_from_skip old new k s :
  PyStr.replace_from old new k s = PyStr.replace_from old new 0 (PyStr.drop k s).
Proof.
  revert k. induction s as [|c s IH]; intros k.
  - now destruct k.
  - destruct k as [|k]; [reflexivity|]. cbn [PyStr.replace_from PyStr.drop]. apply IH.
Qed.

Lemma replace_from_hit old new s :
  old <> EmptyString -> String.prefix old s = true ->
  PyStr.replace_from old new 0 s
  = new +:+ PyStr.replace_from old new 0 (PyStr.drop (String.length old) s).
Proof.
  intros Hne Hp. destruct old as [|c0 old]; [contradiction|].
  destruct s as [|c s]; [discriminate|].
  cbn [PyStr.replace_from]. rewrite Hp. rewrite replace_from_skip.
  cbn [String.length PyStr.drop]. do 3 f_equal. lia.
Qed.

Lemma replace_from_keep old new c s :
  String.prefix old (String c s) = false ->
  PyStr.replace_from old new 0 (String c s)
  = String c (PyStr.replace_from old new 0 s).
Proof. intros Hp. cbn [PyStr.replace_from]. now rewrite Hp. Qed.

(** [without] holds of nothing but the result of the scan. *)
Lemma without_is_replace pat s r :
  pat <> EmptyString -> without pat s r -> r = PyStr.replace s pat EmptyString.
Proof.
  intros Hne H. unfold PyStr.replace.
  destruct pat as [|c0 pat0] eqn:Hpat; [contradiction|]. rewrite <- Hpat in *.
  induction H as [| s r H IH | c s r Hp H IH].
  - reflexivity.
  - rewrite replace_from_hit; [| exact Hne | apply prefix_spec; eauto].
    now rewrite drop_append.
  - rewrite replace_from_keep by exact Hp. now rewrite <- IH.
Qed.

(** The scan meets [without]. *)
Lemma replace_is_without pat s :
  pat <> EmptyString -> without pat s (PyStr.replace s pat EmptyString).
Proof.
  intros Hne. unfold PyStr.replace.
  destruct pat as [|c0 pat0] eqn:Hpat; [contradiction|]. rewrite <- Hpat in *.
  assert (Hlen : 0 < String.length pat) by (rewrite Hpat; simpl; lia).
  remember (String.length s) as n eqn:Hn.
  assert (Hle : String.length s <= n) by lia. clear Hn.
  revert s Hle. induction n as [|n IH]; intros s Hle.
  - destruct s; [apply without_end | simpl in Hle; lia].
  - destruct s as [|c s]; [apply without_end|].
    destruct (String.prefix pat (String c s)) eqn:Hp.
    + rewrite replace_from_hit by assumption.
      apply prefix_spec in Hp. destruct Hp as [rest Hrest].
      rewrite Hrest, drop_append. simpl. apply without_hit, IH.
      assert (String.length (String c s) = String.length pat + String.length rest)
        by (rewrite Hrest; apply length_append).
      simpl in *. lia.
    + rewrite replace_from_keep by exact Hp.
      apply without_keep; [exact Hp | apply IH; simpl in Hle; lia].
Qed.

Lemma lstrip_spec s :
  exists l, s = l +:+ PyStr.lstrip s /\ all_space l = true
            /\ first_is_space (PyStr.lstrip s) = false.
Proof.
  induction s as [|c s [l [Hs [Hl Hf]]]].
  - exists EmptyString. repeat split.
  - cbn [PyStr.lstrip]. destruct (PyStr.isspace c) eqn:Hc.
    + exists (String c l). simpl. rewrite Hc, Hl, <- Hs. repeat split. exact Hf.
    + exists EmptyString. simpl. repeat split. exact Hc.
Qed.

Lemma rstrip_spec s :
  exists t, s = PyStr.rstrip s +:+ t /\ all_space t = true
            /\ last_is_space (PyStr.rstrip s) = false
            /\ (first_is_space s = false -> first_is_space (PyStr.rstrip s) = false).
Proof.
  induction s as [|c s [t [Hs [Ht [Hl Hf]]]]].
  - exists EmptyString. repeat split.
  - cbn [PyStr.rstrip]. destruct (PyStr.rstrip s) as [|d r] eqn:Hr.
    + simpl in Hs. subst t. destruct (PyStr.isspace c) eqn:Hc.
      * exists (String c s). simpl. rewrite Hc, Ht. repeat split.
      * exists s. simpl. rewrite Hc. repeat split. exact Ht.
    + exists t. split; [simpl; now rewrite Hs at 1 | repeat split].
      * exact Ht.
      * exact Hl.
      * intros H. exact H.
Qed.

Lemma strip_spec s : stripped_of s (PyStr.strip s).
Proof.
  unfold PyStr.strip.
  destruct (lstrip_spec s) as [l [Hs [Hl Hf]]].
  destruct (rstrip_spec (PyStr.lstrip s)) as [t [Hs' [Ht [Hlast Hfirst]]]].
  repeat split.
  - exists l, t. repeat split; try assumption. now rewrite <- Hs', <- Hs.
  - now apply Hfirst.
  - exact Hlast.
Qed.

End Cleaning.

(** C10.  Whatever decoder is used, when the model answers [txt] the
    result of [classify_requirement] is decided by what the decoder does on
    one string, [strip_fences txt].  That string is [txt] with the
    occurrences of the json fence marker taken out, then the occurrences of
    the bare marker taken out, then the whitespace at both ends removed -
    wherever the markers stand: a marker inside a string value of the answer
    goes too. *)
Theorem C10_decoder_gets_cleaned_text loads model text txt e w :
  model (prompt text) = ReplyText txt ->
  classify_requirement loads model text e w
  = match loads (strip_fences txt) with
    | Some v => (inr v, w)
    | None =>
        (inr (fallback text),
         add_page w [ErrorBox "Error classifying requirement: " (Some JSONDecodeError)])
    end
  /\ (exists a b,
        without "```json" txt a /\ without "```" a b
        /\ stripped_of b (strip_fences txt))
  /\ (forall a b,
        without "```json" txt a -> without "```" a b ->
        strip_fences txt = PyStr.strip b)
  /\ strip_fences fence_in_value
     = "{" +:+ quoted "explanation" +:+ ": " +:+ quoted "put it in a  block" +:+ "}".
Proof.
  intros Hm. split; [| split; [| split]].
  - destruct (loads (strip_fences txt)) as [v|] eqn:Hl.
    + now apply (classify_decoded loads model text e w txt).
    + now apply (classify_decode_error loads model text e w txt).
  - exists (PyStr.replace txt "```json" EmptyString).
    exists (PyStr.replace (PyStr.replace txt "```json" EmptyString) "```" EmptyString).
    split; [apply replace_is_without; discriminate |].
    split; [apply replace_is_without; discriminate |].
    apply strip_spec.
  - intros a b Ha Hb.
    apply without_is_replace in Ha; [| discriminate]. subst a.
    apply without_is_replace in Hb; [| discriminate]. subst b.
    reflexivity.
  - vm_compute. reflexivity.
Qed.

(** ** The statements on concrete inputs *)

(** The login example, run from the fresh session with the reference
    decoder and the fenced answer. *)
Lemma C4_login_submission_witness :
  well_formed fresh_session
  /\ tally (session_after Json.loads login_env (ChatInput login_text) fresh_session)
       "functional"
     = S (tally fresh_session "functional").
Proof.
  assert (Hwf : well_formed fresh_session) by (vm_compute; reflexivity).
  split; [exact Hwf |].
  exact (proj1 (proj2 (proj2 (proj2 (proj2
           (C4_login_submission_is_recorded Json.loads login_env fresh_session
              (fun _ => ReplyText login_response) login_response
              eq_refl Hwf eq_refl ltac:(vm_compute; reflexivity))))))).
Defined.

(** Clearing the chat after one failed submission. *)
Lemma C5_clear_witness :
  clear_fires failing_env ClickClearChat one_failed_submission
  /\ messages (session_after Json.loads failing_env ClickClearChat
                 one_failed_submission) = [].
Proof.
  assert (Hf : clear_fires failing_env ClickClearChat one_failed_submission).
  { split; [eexists; reflexivity | split].
    - vm_compute. reflexivity.
    - right. split; [reflexivity | vm_compute; discriminate]. }
  split; [exact Hf |].
  exact (proj1 (proj2
           (C5_clear_resets_store_and_log_together Json.loads failing_env
              ClickClearChat one_failed_submission Hf))).
Defined.

(** The state after one failed submission is reachable. *)
Lemma C6_store_keys_witness :
  reachable Json.loads one_failed_submission
  /\ dom (requirements one_failed_submission) = category_keys.
Proof.
  assert (Hr : reachable Json.loads one_failed_submission)
    by (apply reachable_step, reachable_fresh).
  split; [exact Hr |].
  exact (proj1 (C6_store_keeps_its_four_keys Json.loads one_failed_submission Hr)).
Defined.

(** The label of the fallback. *)
Lemma C8_resolve_category_witness :
  subscript (fallback login_text) "classification" = inr (VStr "Unknown")
  /\ categorize (fallback login_text) failing_env start_world
     = (inr "functional", start_world).
Proof.
  split; [reflexivity |].
  exact (proj1 (C8_resolve_category_total_and_pure (fallback login_text) "Unknown"
                  failing_env start_world eq_refl)).
Defined.

(** A call that raises, from the fresh session. *)
Lemma C9_failed_classification_witness :
  well_formed fresh_session
  /\ login_text <> EmptyString
  /\ tally (session_after Json.loads failing_env (ChatInput login_text) fresh_session)
       "functional"
     = S (tally fresh_session "functional").
Proof.
  assert (Hwf : well_formed fresh_session) by (vm_compute; reflexivity).
  assert (Hne : login_text <> EmptyString) by discriminate.
  split; [exact Hwf | split; [exact Hne |]].
  exact (proj1 (proj2 (proj2 (proj2
           (C9_failed_classification_goes_to_functional Json.loads failing_env
              fresh_session (fun _ => ReplyError) login_text
              eq_refl Hwf Hne (or_introl eq_refl)))))).
Defined.

(** The fenced answer of the login example. *)
Lemma C10_decoder_input_witness :
  classify_requirement Json.loads (fun _ => ReplyText login_response) login_text
    login_env start_world
  = match Json.loads (strip_fences login_response) with
    | Some v => (inr v, start_world)
    | None =>
        (inr (fallback login_text),
         add_page start_world
           [ErrorBox "Error classifying requirement: " (Some JSONDecodeError)])
    end.
Proof.
  exact (proj1 (C10_decoder_gets_cleaned_text Json.loads
                  (fun _ => ReplyText login_response) login_text login_response
                  login_env start_world eq_refl)).
Defined.

(** * Further properties of the code *)

(** ** The label test, simplified *)

Section LabelFacts.

Implicit Types (s r a b p : string) (c d x : ascii).

Lemma contains_app_l a b s :
  PyStr.contains (a +:+ b) s = true -> PyStr.contains a s = true.
Proof.
  rewrite !contains_spec. intros [l [r ->]].
  exists l, (b +:+ r). now rewrite append_assoc3.
Qed.

Lemma lower_is_map s : PyStr.lower s = map_chars PyStr.lower_char s.
Proof. induction s as [|c s IH]; simpl; [reflexivity | now rewrite IH]. Qed.

Lemma lower_char_idempotent c : PyStr.lower_char (PyStr.lower_char c) = PyStr.lower_char c.
Proof.
  destruct c as [[] [] [] [] [] [] [] []]; vm_compute; reflexivity.
Qed.

Lemma lower_idempotent s : PyStr.lower (PyStr.lower s) = PyStr.lower s.
Proof.
  induction s as [|c s IH]; simpl; [reflexivity |].
  now rewrite lower_char_idempotent, IH.
Qed.

(** Replacing one character by another goes character by character. *)
Lemma replace_char_is_map c d s :
  PyStr.replace s (String c EmptyString) (String d EmptyString)
  = map_chars (swap_char c d) s.
Proof.
  unfold PyStr.replace. induction s as [|x s IH]; [reflexivity |].
  cbn [PyStr.replace_from map_chars String.length Nat.sub].
  unfold swap_char at 1.
  destruct (String.prefix (String c EmptyString) (String x s)) eqn:Hp.
  - apply prefix_cons in Hp. destruct Hp as [-> _].
    rewrite Ascii.eqb_refl. simpl. now rewrite IH.
  - destruct (Ascii.eqb_spec x c) as [-> | Hne].
    + assert (String.prefix (String c EmptyString) (String c s) = true)
        by (apply prefix_cons; split; [reflexivity | apply prefix_empty]).
      congruence.
    + now rewrite IH.
Qed.

Lemma map_chars_append f a b :
  map_chars f (a +:+ b) = map_chars f a +:+ map_chars f b.
Proof. induction a as [|c a IH]; simpl; [reflexivity | now rewrite IH]. Qed.

Lemma map_chars_fixed c d p :
  has_char c p = false -> map_chars (swap_char c d) p = p.
Proof.
  induction p as [|x p IH]; simpl; [reflexivity |].
  intros H. apply orb_false_iff in H. destruct H as [Hx Hp].
  unfold swap_char at 1. now rewrite Hx, IH.
Qed.

(** A pattern without the new character starts the mapped text only
    where it starts the text. *)
Lemma prefix_map_back c d p s :
  has_char d p = false ->
  String.prefix p (map_chars (swap_char c d) s) = true -> String.prefix p s = true.
Proof.
  revert s. induction p as [|x p IH]; intros s Hd Hp.
  - apply prefix_empty.
  - destruct s as [|y s]; [discriminate |].
    simpl in Hd. apply orb_false_iff in Hd. destruct Hd as [Hx Hd].
    cbn [map_chars] in Hp. apply prefix_cons in Hp. destruct Hp as [Hxy Hp].
    apply prefix_cons. split; [| now apply IH].
    unfold swap_char in Hxy. destruct (Ascii.eqb_spec y c) as [-> | Hne].
    + subst x. now rewrite Ascii.eqb_refl in Hx.
    + exact Hxy.
Qed.

(** A pattern with neither character is found in the mapped text exactly
    when it is found in the text. *)
Lemma contains_map_chars c d p s :
  has_char c p = false -> has_char d p = false ->
  PyStr.contains p (map_chars (swap_char c d) s) = PyStr.contains p s.
Proof.
  intros Hc Hd. apply eq_true_iff_eq. split.
  - induction s as [|y s IH]; cbn [map_chars PyStr.contains]; intros H.
    + apply orb_true_iff in H. destruct H as [H | H]; [| discriminate].
      destruct p; [reflexivity | discriminate].
    + apply orb_true_iff in H. apply orb_true_iff. destruct H as [H | H].
      * left. exact (prefix_map_back c d p (String y s) Hd H).
      * right. now apply IH.
  - rewrite !contains_spec. intros [l [r ->]].
    exists (map_chars (swap_char c d) l), (map_chars (swap_char c d) r).
    rewrite !map_chars_append. now rewrite (map_chars_fixed c d p Hc).
Qed.

End LabelFacts.

(** X1.  What lines 94-104 compute: the label is lowered, and the first
    of "functional", "domain", "inverse" found in it names the key, with
    functional as the default.  Turning spaces into underscores and the
    test for the two non-functional markers change nothing. *)
Theorem resolve_category_by_substring label :
  resolve_category label
  = let lowered := PyStr.lower label in
    if PyStr.contains "functional" lowered then "functional"
    else if PyStr.contains "domain" lowered then "domain"
    else if PyStr.contains "inverse" lowered then "inverse"
    else "functional".
Proof.
  unfold resolve_category, category_key_of. cbv zeta.
  rewrite replace_char_is_map.
  set (category := map_chars (swap_char " " "_") (PyStr.lower label)).
  assert (Hf : PyStr.contains "functional" category
               = PyStr.contains "functional" (PyStr.lower label))
    by (apply contains_map_chars; reflexivity).
  assert (Hd : PyStr.contains "domain" category
               = PyStr.contains "domain" (PyStr.lower label))
    by (apply contains_map_chars; reflexivity).
  assert (Hi : PyStr.contains "inverse" category
               = PyStr.contains "inverse" (PyStr.lower label))
    by (apply contains_map_chars; reflexivity).
  rewrite <- Hf, <- Hd, <- Hi.
  destruct (PyStr.contains "functional" category) eqn:H1; [reflexivity |].
  destruct (PyStr.contains "non_functional" category) eqn:H2.
  { apply (contains_app_r "non_" "functional") in H2. congruence. }
  destruct (PyStr.contains "non-functional" category) eqn:H3.
  { apply (contains_app_r "non-" "functional") in H3. congruence. }
  reflexivity.
Qed.

Lemma lower_swap_space_commute x :
  PyStr.lower_char (swap_char " " "_" x) = swap_char " " "_" (PyStr.lower_char x).
Proof. destruct x as [[] [] [] [] [] [] [] []]; vm_compute; reflexivity. Qed.

Lemma swap_space_idempotent x :
  swap_char " " "_" (swap_char " " "_" x) = swap_char " " "_" x.
Proof. destruct x as [[] [] [] [] [] [] [] []]; vm_compute; reflexivity. Qed.

Lemma normalise_underscored s :
  map_chars (swap_char " " "_") (PyStr.lower (map_chars (swap_char " " "_") s))
  = map_chars (swap_char " " "_") (PyStr.lower s).
Proof.
  induction s as [|x s IH]; simpl; [reflexivity |].
  now rewrite lower_swap_space_commute, swap_space_idempotent, IH.
Qed.

(** X2.  The key does not depend on the letter case of the label, nor on
    whether its words are separated by spaces or by underscores: a label,
    its lowered form and its form with underscores for spaces get the same
    key. *)
Theorem resolve_category_ignores_case_and_spacing label :
  resolve_category (PyStr.lower label) = resolve_category label
  /\ resolve_category (PyStr.replace label " " "_") = resolve_category label.
Proof.
  split.
  - unfold resolve_category. now rewrite lower_idempotent.
  - unfold resolve_category. rewrite !replace_char_is_map.
    now rewrite normalise_underscored.
Qed.

(** ** What is left of the fences *)

Section FenceFacts.

Implicit Types (s r a b p : string) (c : ascii).

Lemma prefix_backticks s :
  String.prefix "```" s = true <-> 3 <= leading_backticks s.
Proof.
  split.
  - intros H. apply prefix_spec in H. destruct H as [r ->]. simpl. lia.
  - intros H.
    destruct s as [|c1 s]; [simpl in H; lia |].
    destruct (Ascii.eqb_spec c1 "`") as [-> | Hne].
    2: { exfalso. destruct c1 as [[] [] [] [] [] [] [] []]; simpl in H; try lia; congruence. }
    destruct s as [|c2 s]; [simpl in H; lia |].
    destruct (Ascii.eqb_spec c2 "`") as [-> | Hne].
    2: { exfalso. destruct c2 as [[] [] [] [] [] [] [] []]; simpl in H; try lia; congruence. }
    destruct s as [|c3 s]; [simpl in H; lia |].
    destruct (Ascii.eqb_spec c3 "`") as [-> | Hne].
    2: { exfalso. destruct c3 as [[] [] [] [] [] [] [] []]; simpl in H; try lia; congruence. }
    apply prefix_spec. now exists s.
Qed.

(** Taking the bare marker out leaves fewer than three backticks at the
    head, and no marker anywhere. *)
Lemma without_backticks s r :
  without "```" s r ->
  leading_backticks r <= leading_backticks s
  /\ leading_backticks r <= 2
  /\ PyStr.contains "```" r = false.
Proof.
  induction 1 as [| s r H [IH1 [IH2 IH3]] | c s r Hp H [IH1 [IH2 IH3]]].
  - repeat split; simpl; lia.
  - repeat split; try assumption. simpl. lia.
  - assert (Hs : leading_backticks (String c s) <= 2).
    { destruct (le_lt_dec 3 (leading_backticks (String c s))) as [Hge | Hlt]; [| lia].
      apply prefix_backticks in Hge. congruence. }
    assert (Hr : leading_backticks (String c r) <= leading_backticks (String c s)).
    { destruct c as [[] [] [] [] [] [] [] []]; simpl; lia. }
    repeat split; [exact Hr | lia |].
    cbn [PyStr.contains]. rewrite IH3, orb_false_r.
    destruct (String.prefix "```" (String c r)) eqn:Hpr; [| reflexivity].
    apply prefix_backticks in Hpr. lia.
Qed.

Lemma contains_strip p s :
  PyStr.contains p (PyStr.strip s) = true -> PyStr.contains p s = true.
Proof.
  destruct (strip_spec s) as [[l [t [Hs _]]] _].
  rewrite !contains_spec. intros [a [b Hab]].
  exists (l +:+ a), (b +:+ t). rewrite Hs at 1. rewrite Hab.
  now rewrite !append_assoc3.
Qed.

(** Where the pattern does not occur, [replace] changes nothing. *)
Lemma replace_absent s p new :
  p <> EmptyString -> PyStr.contains p s = false -> PyStr.replace s p new = s.
Proof.
  intros Hne. unfold PyStr.replace. destruct p as [|c0 p0] eqn:Hp; [contradiction |].
  rewrite <- Hp. clear Hne Hp.
  induction s as [|c s IH]; [reflexivity |].
  cbn [PyStr.contains]. intros H. apply orb_false_iff in H. destruct H as [H1 H2].
  rewrite replace_from_keep by exact H1. now rewrite IH.
Qed.

Lemma lstrip_fixed s : first_is_space s = false -> PyStr.lstrip s = s.
Proof. destruct s as [|c s]; [reflexivity |]. simpl. now intros ->. Qed.

Lemma rstrip_fixed s : last_is_space s = false -> PyStr.rstrip s = s.
Proof.
  induction s as [|c s IH]; [reflexivity |].
  destruct s as [|d s].
  - simpl. now intros ->.
  - intros H. change (last_is_space (String d s) = false) in H.
    change (PyStr.rstrip (String c (String d s)))
      with (match PyStr.rstrip (String d s) with
            | EmptyString =>
                if PyStr.isspace c then EmptyString else String c EmptyString
            | String d' r => String c (String d' r)
            end).
    rewrite (IH H). reflexivity.
Qed.

Lemma strip_idempotent s : PyStr.strip (PyStr.strip s) = PyStr.strip s.
Proof.
  destruct (strip_spec s) as [_ [Hf Hl]].
  unfold PyStr.strip at 1. rewrite (lstrip_fixed _ Hf). now apply rstrip_fixed.
Qed.

Lemma strip_fences_no_backticks txt :
  PyStr.contains "```" (strip_fences txt) = false.
Proof.
  unfold strip_fences.
  destruct (PyStr.contains "```" (PyStr.strip _)) eqn:H; [| reflexivity].
  apply contains_strip in H.
  pose proof (replace_is_without "```"
                (PyStr.replace txt "```json" EmptyString) ltac:(discriminate)) as Hw.
  apply without_backticks in Hw. destruct Hw as [_ [_ Hw]]. congruence.
Qed.

End FenceFacts.

(** X3.  The text given to the decoder never holds a fence marker, bare
    or with the json tag, and cleaning a cleaned text changes nothing. *)
Theorem strip_fences_leaves_no_marker txt :
  PyStr.contains "```" (strip_fences txt) = false
  /\ PyStr.contains "```json" (strip_fences txt) = false
  /\ strip_fences (strip_fences txt) = strip_fences txt.
Proof.
  pose proof (strip_fences_no_backticks txt) as H.
  assert (Hj : PyStr.contains "```json" (strip_fences txt) = false).
  { destruct (PyStr.contains "```json" (strip_fences txt)) eqn:Hj; [| reflexivity].
    apply (contains_app_l "```" "json") in Hj. congruence. }
  split; [exact H | split; [exact Hj |]].
  unfold strip_fences at 1.
  rewrite (replace_absent _ "```json") by (discriminate || exact Hj).
  rewrite (replace_absent _ "```") by (discriminate || exact H).
  unfold strip_fences. apply strip_idempotent.
Qed.

(** X4.  On a response without any bare marker, cleaning only removes the
    whitespace at the two ends. *)
Theorem strip_fences_without_marker txt :
  PyStr.contains "```" txt = false -> strip_fences txt = PyStr.strip txt.
Proof.
  intros H. unfold strip_fences.
  assert (Hj : PyStr.contains "```json" txt = false).
  { destruct (PyStr.contains "```json" txt) eqn:Hj; [| reflexivity].
    apply (contains_app_l "```" "json") in Hj. congruence. }
  rewrite (replace_absent txt "```json") by (discriminate || exact Hj).
  now rewrite (replace_absent txt "```") by (discriminate || exact H).
Qed.

(** ** Every way an event is handled *)

Section Handling.

Variable loads : string -> option value.
Implicit Types (e : env) (w : world) (s : session_state) (model : string -> reply).

(** The classifier returns a value and adds its notices to the page; the
    value and the notices are the same in every world. *)
Lemma classify_uniform model text :
  exists v notices,
    (forall e w, classify_requirement loads model text e w = (inr v, add_page w notices))
    /\ ((notices = []
         /\ exists txt, model (prompt text) = ReplyText txt
                        /\ loads (strip_fences txt) = Some v)
        \/ (v = fallback text
            /\ exists x, notices = [ErrorBox "Error classifying requirement: " (Some x)]
                         /\ (model (prompt text) = ReplyError
                             \/ exists txt, model (prompt text) = ReplyText txt
                                            /\ loads (strip_fences txt) = None))).
Proof.
  destruct (model (prompt text)) as [txt|] eqn:Hm.
  - destruct (loads (strip_fences txt)) as [v|] eqn:Hl.
    + exists v, []. split.
      * intros e w. rewrite add_page_nil. exact (classify_decoded loads model text e w txt v Hm Hl).
      * left. split; [reflexivity | eauto].
    + eexists _, _. split.
      * intros e w. exact (classify_decode_error loads model text e w txt Hm Hl).
      * right. split; [reflexivity |]. eexists. split; [reflexivity | eauto].
  - eexists _, _. split.
    + intros e w. exact (classify_reply_error loads model text e w Hm).
    + right. split; [reflexivity |]. eexists. split; [reflexivity | eauto].
Qed.

Lemma shape_error_fallback text : shape_error (fallback text) = None.
Proof. reflexivity. Qed.

(** Without a shape error the three fields are there and the first is a
    string. *)
Lemma shape_error_none cr :
  shape_error cr = None ->
  exists label rw ex,
    subscript cr "classification" = inr (VStr label)
    /\ subscript cr "suggested_rewrite" = inr rw
    /\ subscript cr "explanation" = inr ex.
Proof.
  unfold shape_error.
  destruct (subscript cr "classification") as [x | []]; try discriminate.
  destruct (subscript cr "suggested_rewrite") as [x | rw]; try discriminate.
  destruct (subscript cr "explanation") as [x | ex]; try discriminate.
  intros _. eauto 10.
Qed.

(** With a shape error [add_requirement] raises it and leaves the world
    as it was. *)
Lemma add_requirement_raises text cr x e w :
  shape_error cr = Some x ->
  add_requirement text cr e w = (inl (Raise x), w).
Proof.
  unfold shape_error, add_requirement, categorize, bind.
  destruct (subscript cr "classification") as [x0 | v0]; cbn [lift signal_now ret].
  { intros [= ->]. reflexivity. }
  destruct v0; cbn [method_lower lift signal_now ret]; try (intros [= <-]; reflexivity).
  destruct (subscript cr "suggested_rewrite") as [x1 | rw]; cbn [lift signal_now ret].
  { intros [= ->]. reflexivity. }
  destruct (subscript cr "explanation") as [x2 | ex]; cbn [lift signal_now ret].
  { intros [= ->]. reflexivity. }
  discriminate.
Qed.

(** A submission whose result has a shape error: the user turn, the
    notices of the classifier, and the exception. *)
Lemma chat_raise_run model text cr x notices e w :
  text <> EmptyString ->
  (forall e' w', classify_requirement loads model text e' w' = (inr cr, add_page w' notices)) ->
  shape_error cr = Some x ->
  chat loads (ChatInput text) model e w
  = (inl (Raise x),
     {| session :=
          {| messages := messages (session w) ++ [user_turn text (time_time e (clock w))];
             requirements := requirements (session w) |};
        page := page w ++ notices;
        clock := S (clock w) |}).
Proof.
  intros Hne Hcl Hx. unfold chat.
  apply String.eqb_neq in Hne. rewrite Hne.
  unfold bind at 1. cbn [now].
  unfold bind at 1.
  cbn [append_message set_messages bind get_session put_session session page clock].
  unfold bind at 1. rewrite Hcl.
  unfold bind at 1. rewrite (add_requirement_raises text cr x) by exact Hx.
  reflexivity.
Qed.

Lemma handle_raise model text cr x notices e s :
  gemini e = Ready model ->
  well_formed s ->
  text <> EmptyString ->
  (forall e' w', classify_requirement loads model text e' w' = (inr cr, add_page w' notices)) ->
  shape_error cr = Some x ->
  handle loads e (ChatInput text) s
  = (inl (Raise x),
     {| session := with_user_turn e s text;
        page := sidebar_elements s ++ notices;
        clock := 1 |}).
Proof.
  intros Hg Hwf Hne Hcl Hx. unfold handle.
  unfold app at 1. unfold bind at 1.
  rewrite (configure_gemini_ready e _ model Hg).
  unfold bind at 1. rewrite sidebar_run by (assumption || discriminate).
  unfold bind at 1.
  rewrite (chat_raise_run model text cr x notices) by assumption.
  reflexivity.
Qed.

(** No event, or an empty text: the page is rendered and nothing changes. *)
Lemma handle_idle model e t s :
  gemini e = Ready model ->
  well_formed s ->
  t = NoEvent \/ t = ChatInput EmptyString \/ (t = ClickClearChat /\ messages s = []) ->
  handle loads e t s = (inr tt, {| session := s; page := page_of s; clock := 0 |}).
Proof.
  intros Hg Hwf Ht. unfold handle, app, bind.
  rewrite (configure_gemini_ready e _ model Hg).
  rewrite sidebar_run by (assumption || (destruct Ht as [-> | [-> | [-> _]]]; discriminate)).
  assert (Hchat : forall w, chat loads t model e w = (inr tt, w)).
  { intros w. destruct Ht as [-> | [-> | [-> _]]]; reflexivity. }
  rewrite Hchat, display_run.
  assert (Hclear : forall w, session w = s ->
            clear_chat t e w = (inr tt, add_page w (clear_chat_button s))).
  { intros w Hw. destruct Ht as [-> | [-> | [-> Hm]]].
    - rewrite clear_chat_run by discriminate. now rewrite Hw.
    - rewrite clear_chat_run by discriminate. now rewrite Hw.
    - unfold clear_chat, clear_chat_button, bind. cbn [get_session].
      rewrite Hw, Hm. cbn [ret]. now rewrite add_page_nil. }
  rewrite Hclear by reflexivity.
  unfold add_page, page_of. cbn [session page clock]. simpl app.
  now rewrite <- !app_assoc.
Qed.

(** Without a model the run stops at line 34 or 44, with one error box. *)
Lemma handle_not_ready e t s :
  (forall model, gemini e <> Ready model) ->
  exists text cause,
    handle loads e t s
    = (inl Stop, {| session := s; page := [ErrorBox text cause]; clock := 0 |}).
Proof.
  intros Hn. unfold handle, app, bind, configure_gemini.
  destruct (gemini e) as [ | | model] eqn:Hg.
  - do 2 eexists. reflexivity.
  - do 2 eexists. reflexivity.
  - now destruct (Hn model).
Qed.

(** The four ways the session can come out of an event. *)
Lemma session_after_cases e t s :
  well_formed s ->
  session_after loads e t s = s
  \/ ((t = ClickClearAll \/ t = ClickClearChat)
      /\ session_after loads e t s = fresh_session)
  \/ (exists text, t = ChatInput text /\ text <> EmptyString
        /\ session_after loads e t s = with_user_turn e s text)
  \/ (exists text label rw ex old,
        t = ChatInput text /\ text <> EmptyString
        /\ requirements s !! resolve_category label = Some old
        /\ session_after loads e t s = after_submission e s text label rw ex old).
Proof.
  intros Hwf. unfold session_after.
  destruct (gemini e) as [ | | model] eqn:Hg.
  1, 2: destruct (handle_not_ready e t s) as [text [cause ->]];
        [intros model; congruence | now left].
  destruct t as [ | | text | ].
  - rewrite (handle_idle model e NoEvent s Hg Hwf) by auto. now left.
  - rewrite (handle_clear_all loads e s model Hg Hwf). right. left. auto.
  - destruct (String.eqb_spec text EmptyString) as [-> | Hne].
    { rewrite (handle_idle model e _ s Hg Hwf) by auto. now left. }
    destruct (classify_uniform model text) as [cr [notices [Hcl _]]].
    destruct (shape_error cr) as [x|] eqn:Hx.
    + rewrite (handle_raise model text cr x notices e s) by auto.
      right. right. left. eauto.
    + destruct (shape_error_none cr Hx) as [label [rw [ex [H1 [H2 H3]]]]].
      destruct (well_formed_lookup s (resolve_category label) Hwf
                  (category_key_of_in_keys _)) as [old Ho].
      rewrite (handle_submit loads model text cr label rw ex old notices e s)
        by auto.
      right. right. right. exists text, label, rw, ex, old. auto.
  - destruct (messages s) as [|m l] eqn:Hm.
    + rewrite (handle_idle model e ClickClearChat s Hg Hwf) by auto. now left.
    + rewrite (handle_clear_chat loads e s model Hg Hwf) by (rewrite Hm; discriminate).
      right. left. auto.
Qed.

End Handling.

(** X5.  Without a configured model - the key is missing or the setup
    raised - every event ends the run at once: the run stops, the session
    is untouched, and the page holds one error box and nothing else. *)
Theorem unconfigured_model_stops_every_run loads e t s :
  gemini e = MissingKey \/ gemini e = SetupError ->
  fst (handle loads e t s) = inl Stop
  /\ session_after loads e t s = s
  /\ exists text cause, page_after loads e t s = [ErrorBox text cause].
Proof.
  intros Hg. unfold session_after, page_after.
  destruct (handle_not_ready loads e t s) as [text [cause ->]].
  - intros model. destruct Hg; congruence.
  - cbn [fst snd session page]. eauto.
Qed.

(** X6.  A run without an event, and a run whose chat input is the empty
    string, leave the session as it was and render the four counts, the
    first clear button, the last ten turns and - when the log is not
    empty - the second clear button. *)
Theorem idle_run_only_renders loads e t s model :
  gemini e = Ready model ->
  well_formed s ->
  t = NoEvent \/ t = ChatInput EmptyString ->
  fst (handle loads e t s) = inr tt
  /\ session_after loads e t s = s
  /\ page_after loads e t s
     = [Metric "Functional" (tally s "functional");
        Metric "Non-Functional" (tally s "non_functional");
        Metric "Domain" (tally s "domain");
        Metric "Inverse" (tally s "inverse");
        Button "Clear All Requirements"]
       ++ map chat_element (drop (length (messages s) - 10) (messages s))
       ++ (if decide (messages s = []) then [] else [Button "Clear Chat"]).
Proof.
  intros Hg Hwf Ht. unfold session_after, page_after.
  rewrite (handle_idle loads model e t s Hg Hwf) by tauto.
  cbn [fst snd session page]. repeat split.
  unfold page_of, sidebar_elements, clear_chat_button.
  rewrite slice_from_last_ten.
  destruct (messages s); reflexivity.
Qed.

(** X7.  The classifier never raises, stops or asks for a rerun, and
    leaves the session and the clock alone.  Either the response decoded
    and it returns the decoded value and shows nothing, or the call raised
    or the response did not decode and it returns the fallback and shows
    one error box. *)
Theorem classify_requirement_outcome loads model text e w :
  exists v notices,
    classify_requirement loads model text e w = (inr v, add_page w notices)
    /\ ((notices = []
         /\ exists txt, model (prompt text) = ReplyText txt
                        /\ loads (strip_fences txt) = Some v)
        \/ (v = fallback text
            /\ exists x, notices = [ErrorBox "Error classifying requirement: " (Some x)]
                         /\ (model (prompt text) = ReplyError
                             \/ exists txt, model (prompt text) = ReplyText txt
                                            /\ loads (strip_fences txt) = None))).
Proof.
  destruct (classify_uniform loads model text) as [v [notices [Hcl Hc]]].
  exists v, notices. split; [apply Hcl | exact Hc].
Qed.


(** X9.  A submission whose response decodes to a result with a shape
    error - not a dictionary, a field missing, a classification that is not
    a string - ends in that exception, raised by [add_requirement].  The
    user turn is already in the log; the store is as it was; the page shows
    the counts and nothing of the second run. *)
Theorem misshaped_submission_keeps_only_user_turn loads e s model text txt cr x :
  gemini e = Ready model ->
  well_formed s ->
  text <> EmptyString ->
  model (prompt text) = ReplyText txt ->
  loads (strip_fences txt) = Some cr ->
  shape_error cr = Some x ->
  let s' := session_after loads e (ChatInput text) s in
  fst (handle loads e (ChatInput text) s) = inl (Raise x)
  /\ messages s' = messages s ++ [user_turn text (time_time e 0)]
  /\ requirements s' = requirements s
  /\ page_after loads e (ChatInput text) s = sidebar_elements s.
Proof.
  intros Hg Hwf Hne Hm Hl Hx s'.
  assert (Hcl : forall e' w', classify_requirement loads model text e' w'
                              = (inr cr, add_page w' [])).
  { intros e' w'. rewrite add_page_nil.
    exact (classify_decoded loads model text e' w' txt cr Hm Hl). }
  unfold s', session_after, page_after.
  rewrite (handle_raise loads model text cr x [] e s Hg Hwf Hne Hcl Hx).
  cbn [fst snd session page with_user_turn messages requirements].
  rewrite app_nil_r. repeat split.
Qed.

(** X10.  [add_requirement] is all or nothing, on every result and every
    store: either it raises and the session is as it was, or it returns and
    exactly one entry, holding the text, has been put at the end of the
    list under the key of the label, nothing else changed.  The page is
    untouched either way. *)
Theorem add_requirement_all_or_nothing text cr e w :
  let w' := snd (add_requirement text cr e w) in
  page w' = page w
  /\ messages (session w') = messages (session w)
  /\ ((exists x, fst (add_requirement text cr e w) = inl (Raise x)
                 /\ session w' = session w)
      \/ (fst (add_requirement text cr e w) = inr tt
          /\ exists label rw ex old,
               subscript cr "classification" = inr (VStr label)
               /\ requirements (session w) !! resolve_category label = Some old
               /\ requirements (session w')
                  = <[resolve_category label :=
                        old ++ [entry_of text rw ex (time_time e (clock w))]]>
                      (requirements (session w)))).
Proof.
  intros w'. unfold w'. clear w'.
  destruct (shape_error cr) as [x|] eqn:Hx.
  - rewrite (add_requirement_raises text cr x e w Hx). cbn [fst snd].
    repeat split. left. eauto.
  - destruct (shape_error_none cr Hx) as [label [rw [ex [H1 [H2 H3]]]]].
    destruct (requirements (session w) !! resolve_category label) as [old|] eqn:Ho.
    + rewrite (add_requirement_run text cr label rw ex old e w H1 H2 H3 Ho).
      cbn [fst snd session page messages requirements].
      repeat split. right. split; [reflexivity |].
      exists label, rw, ex, old. repeat split; assumption.
    + unfold add_requirement, bind.
      rewrite (categorize_run cr label e w H1), H2, H3.
      cbn [lift ret now]. unfold append_requirement, bind. cbn [get_session session].
      rewrite Ho. cbn [lift signal_now fst snd session page].
      repeat split. left. eauto.
Qed.

(** ** What holds in every state of a session *)

Section SessionInvariants.

Variable loads : string -> option value.
Implicit Types (e : env) (s : session_state).

Lemma count_role_app r l1 l2 :
  count_role r (l1 ++ l2) = count_role r l1 + count_role r l2.
Proof. induction l1 as [|m l1 IH]; simpl; [reflexivity | rewrite IH; lia]. Qed.

Lemma total_entries_after_submission e s text label rw ex old :
  requirements s !! resolve_category label = Some old ->
  total_entries (after_submission e s text label rw ex old) = S (total_entries s).
Proof.
  intros Ho.
  destruct (after_submission_store e s text label rw ex old Ho) as [_ [_ [Hk Hother]]].
  unfold total_entries.
  destruct (category_key_of_cases
              (PyStr.replace (PyStr.lower label) " " "_")) as [Hc | [Hc | [Hc | Hc]]];
    fold (resolve_category label) in Hc; rewrite Hc in *;
    rewrite Hk, !Hother by discriminate; lia.
Qed.

Lemma fresh_session_lookup key l :
  requirements fresh_session !! key = Some l -> l = [].
Proof.
  intros Hl. destruct (decide (key ∈ category_keys)) as [Hk | Hk].
  - destruct (category_keys_cases key Hk) as [-> | [-> | [-> | ->]]];
      vm_compute in Hl; congruence.
  - assert (Hn : requirements fresh_session !! key = None).
    { apply not_elem_of_dom. pose proof fresh_session_well_formed as Hf.
      unfold well_formed in Hf. now rewrite Hf. }
    congruence.
Qed.

Lemma fresh_session_entries_from_log : entries_from_log fresh_session.
Proof.
  intros key l entry Hl Hin. apply fresh_session_lookup in Hl. subst l.
  now apply not_elem_of_nil in Hin.
Qed.

(** The facts below, proved together over the events of a session. *)
Lemma reachable_invariants s :
  reachable loads s ->
  total_entries s = count_role "assistant" (messages s)
  /\ (length (messages s)
      = count_role "user" (messages s) + count_role "assistant" (messages s)
      /\ count_role "assistant" (messages s) <= count_role "user" (messages s))
  /\ requirements s !! "non_functional" = Some []
  /\ Forall turn_ok (messages s)
  /\ entries_from_log s.
Proof.
  induction 1 as [|e t s Hs [I1 [[I2 I2'] [I3 [I4 I5]]]]].
  - repeat split; try reflexivity.
    + constructor.
    + apply fresh_session_entries_from_log.
  - pose proof (reachable_well_formed loads s Hs) as Hwf.
    destruct (session_after_cases loads e t s Hwf)
      as [-> | [[_ ->] | [[text [_ [Hne ->]]] | [text [label [rw [ex [old [_ [Hne [Ho ->]]]]]]]]]]].
    + repeat split; assumption.
    + repeat split; try reflexivity.
      * constructor.
      * apply fresh_session_entries_from_log.
    + unfold with_user_turn. cbn [messages requirements].
      split; [| split; [| split; [| split]]].
      * rewrite count_role_app. simpl. unfold total_entries, tally in *.
        cbn [requirements]. lia.
      * rewrite !count_role_app, length_app. simpl. lia.
      * exact I3.
      * apply Forall_app. split; [exact I4 |].
        constructor; [| constructor]. left. repeat split. exact Hne.
      * intros key l entry Hl Hin. cbn [requirements messages] in *.
        destruct (I5 key l entry Hl Hin) as [m [Hm [Hr Hc]]].
        exists m. split; [apply elem_of_app; now left | now split].
    + split; [| split; [| split; [| split]]].
      * rewrite (total_entries_after_submission e s text label rw ex old Ho).
        unfold after_submission. cbn [messages].
        rewrite count_role_app. simpl. lia.
      * unfold after_submission. cbn [messages].
        rewrite !count_role_app, length_app. simpl. lia.
      * destruct (after_submission_store e s text label rw ex old Ho) as [_ [Hb _]].
        rewrite Hb; [exact I3 |].
        intros Heq. symmetry in Heq.
        exact (category_key_of_never_non_functional _ Heq).
      * unfold after_submission. cbn [messages].
        apply Forall_app. split; [exact I4 |].
        constructor; [| constructor; [| constructor]].
        -- left. repeat split. exact Hne.
        -- right. split; [reflexivity | now exists label].
      * intros key l entry Hl Hin.
        destruct (after_submission_store e s text label rw ex old Ho) as [Ha [Hb _]].
        unfold after_submission at 1. cbn [messages].
        destruct (decide (key = resolve_category label)) as [-> | Hk].
        -- rewrite Ha in Hl. injection Hl as <-.
           apply elem_of_app in Hin. destruct Hin as [Hin | Hin].
           ++ destruct (I5 _ old entry Ho Hin) as [m [Hm [Hr Hc]]].
              exists m. split; [apply elem_of_app; now left | now split].
           ++ apply list_elem_of_singleton in Hin. subst entry.
              exists (user_turn text (time_time e 0)).
              split; [| now split].
              apply elem_of_app. right. apply elem_of_cons. now left.
        -- rewrite Hb in Hl by exact Hk.
           destruct (I5 key l entry Hl Hin) as [m [Hm [Hr Hc]]].
           exists m. split; [apply elem_of_app; now left | now split].
Qed.

End SessionInvariants.

(** X11.  In every state of a session the store holds as many entries,
    over its four keys, as the log holds assistant turns; every turn is a
    user turn or an assistant turn; and there are never more assistant
    turns than user turns. *)
Theorem entries_match_assistant_turns loads s :
  reachable loads s ->
  total_entries s = count_role "assistant" (messages s)
  /\ length (messages s)
     = count_role "user" (messages s) + count_role "assistant" (messages s)
  /\ count_role "assistant" (messages s) <= count_role "user" (messages s).
Proof.
  intros Hr. destruct (reachable_invariants loads s Hr) as [H1 [[H2 H3] _]].
  auto.
Qed.

(** X12.  In every state of a session the list under non_functional is
    empty, so the Non-Functional count shown in the sidebar is 0: no
    submission is ever filed under that key. *)
Theorem non_functional_list_stays_empty loads s :
  reachable loads s ->
  requirements s !! "non_functional" = Some []
  /\ tally s "non_functional" = 0.
Proof.
  intros Hr. destruct (reachable_invariants loads s Hr) as [_ [_ [H _]]].
  split; [exact H |]. unfold tally. now rewrite H.
Qed.

(** X13.  In every state of a session each turn of the log is either a
    user turn with a non-empty text and no category, or an assistant turn
    whose category is a string. *)
Theorem log_turns_are_well_formed loads s :
  reachable loads s -> Forall turn_ok (messages s).
Proof.
  intros Hr. now destruct (reachable_invariants loads s Hr) as [_ [_ [_ [H _]]]].
Qed.

(** X14.  In every state of a session each entry of the store holds,
    as its original text, the text of a user turn that is in the log. *)
Theorem entries_come_from_user_turns loads s :
  reachable loads s -> entries_from_log s.
Proof.
  intros Hr. now destruct (reachable_invariants loads s Hr) as [_ [_ [_ [_ H]]]].
Qed.

(** X15.  An event that is not a press of a clear button never removes
    or changes what is there: the log before is a prefix of the log after,
    and under every key the list before is a prefix of the list after.  At
    most two turns and one entry are added. *)
Theorem only_clear_removes loads e t s :
  well_formed s ->
  t <> ClickClearAll -> t <> ClickClearChat ->
  let s' := session_after loads e t s in
  messages s `prefix_of` messages s'
  /\ (forall key l, requirements s !! key = Some l ->
        exists l', requirements s' !! key = Some l' /\ l `prefix_of` l')
  /\ length (messages s') <= length (messages s) + 2
  /\ total_entries s' <= total_entries s + 1.
Proof.
  intros Hwf Ht1 Ht2 s'. unfold s'. clear s'.
  destruct (session_after_cases loads e t s Hwf)
    as [-> | [[[-> | ->] _] | [[text [_ [Hne ->]]] | [text [label [rw [ex [old [_ [Hne [Ho ->]]]]]]]]]]];
    try contradiction.
  - repeat split; try reflexivity; try lia. intros key l Hl. eauto.
  - unfold with_user_turn, total_entries, tally. cbn [messages requirements].
    repeat split.
    + now apply prefix_app_r.
    + intros key l Hl. eauto.
    + rewrite length_app. simpl. lia.
    + lia.
  - destruct (after_submission_store e s text label rw ex old Ho) as [Ha [Hb _]].
    rewrite (total_entries_after_submission e s text label rw ex old Ho).
    repeat split.
    + unfold after_submission. cbn [messages]. now apply prefix_app_r.
    + intros key l Hl. destruct (decide (key = resolve_category label)) as [-> | Hk].
      * rewrite Ha. rewrite Ho in Hl. injection Hl as <-.
        eexists. split; [reflexivity | now apply prefix_app_r].
      * rewrite Hb by exact Hk. eauto.
    + unfold after_submission. cbn [messages]. rewrite length_app. simpl. lia.
    + lia.
Qed.

(** X16.  After a well-shaped submission the page ends with the text the
    user sent, the answer built from the three fields, and the second clear
    button. *)
Theorem submission_is_displayed loads e s model text txt cr label rw ex :
  gemini e = Ready model ->
  well_formed s ->
  text <> EmptyString ->
  model (prompt text) = ReplyText txt ->
  loads (strip_fences txt) = Some cr ->
  subscript cr "classification" = inr (VStr label) ->
  subscript cr "suggested_rewrite" = inr rw ->
  subscript cr "explanation" = inr ex ->
  exists before,
    page_after loads e (ChatInput text) s
    = before ++ [ChatMessage "user" text;
                 ChatMessage "assistant" (bot_response (VStr label) ex rw);
                 Button "Clear Chat"].
Proof.
  intros Hg Hwf Hne Hm Hl H1 H2 H3.
  destruct (well_formed_lookup s (resolve_category label) Hwf
              (category_key_of_in_keys _)) as [old Ho].
  assert (Hcl : forall w', classify_requirement loads model text e w'
                           = (inr cr, add_page w' [])).
  { intros w'. rewrite add_page_nil. exact (classify_decoded loads model text e w' txt cr Hm Hl). }
  unfold page_after.
  rewrite (handle_submit loads model text cr label rw ex old [] e s
             Hg Hwf Hne Hcl H1 H2 H3 Ho).
  cbn [snd page]. unfold page_of at 1, clear_chat_button, after_submission at 2 3.
  cbn [messages]. rewrite slice_from_last_ten.
  rewrite drop_app_le by (rewrite length_app; simpl; lia).
  destruct (messages s ++ _) eqn:Hd at 2.
  { apply app_eq_nil in Hd. destruct Hd as [_ Hd]. discriminate. }
  rewrite map_app. cbn [map chat_element role content user_turn assistant_turn].
  eexists. rewrite !app_assoc. rewrite <- (app_assoc _ _ [Button "Clear Chat"]).
  reflexivity.
Qed.


(** X18.  Whenever an event is handled without an exception, the page
    ends with the complete rendering of the session as the event left it:
    the counts, the last ten turns and the buttons on screen are those of
    the current state. *)
Theorem handled_event_shows_current_state loads e t s model :
  gemini e = Ready model ->
  well_formed s ->
  fst (handle loads e t s) = inr tt ->
  exists before,
    page_after loads e t s = before ++ page_of (session_after loads e t s).
Proof.
  intros Hg Hwf. unfold page_after, session_after.
  destruct t as [ | | text | ].
  - rewrite (handle_idle loads model e NoEvent s Hg Hwf) by auto.
    intros _. now exists [].
  - rewrite (handle_clear_all loads e s model Hg Hwf). intros _. now eexists.
  - destruct (String.eqb_spec text EmptyString) as [-> | Hne].
    { rewrite (handle_idle loads model e _ s Hg Hwf) by auto. intros _. now exists []. }
    destruct (classify_uniform loads model text) as [cr [notices [Hcl _]]].
    destruct (shape_error cr) as [x|] eqn:Hx.
    + rewrite (handle_raise loads model text cr x notices e s) by auto.
      discriminate.
    + destruct (shape_error_none cr Hx) as [label [rw [ex [H1 [H2 H3]]]]].
      destruct (well_formed_lookup s (resolve_category label) Hwf
                  (category_key_of_in_keys _)) as [old Ho].
      rewrite (handle_submit loads model text cr label rw ex old notices e s)
        by auto.
      intros _. cbn [snd page session].
      exists (sidebar_elements s ++ notices). now rewrite <- app_assoc.
  - destruct (messages s) as [|m l] eqn:Hm.
    + rewrite (handle_idle loads model e ClickClearChat s Hg Hwf) by auto.
      intros _. now exists [].
    + rewrite (handle_clear_chat loads e s model Hg Hwf) by (rewrite Hm; discriminate).
      intros _. now eexists.
Qed.

(** ** The prompt *)

Lemma append_cancel_r a b q : a +:+ q = b +:+ q -> a = b.
Proof.
  revert b. induction a as [|c a IH]; intros b H.
  - destruct b as [|d b]; [reflexivity |]. exfalso.
    apply (f_equal String.length) in H. rewrite !length_append in H.
    simpl in H. lia.
  - destruct b as [|d b].
    + exfalso. apply (f_equal String.length) in H.
      rewrite !length_append in H. simpl in H. lia.
    + simpl in H. injection H as -> H. f_equal. now apply IH.
Qed.

Lemma prompt_split text :
  prompt text
  = prompt_head +:+ (PyRepr.dq +:+ text +:+ PyRepr.dq) +:+ prompt_tail.
Proof.
  unfold prompt. fold prompt_head. fold prompt_tail.
  f_equal. now rewrite !append_assoc3.
Qed.

(** X19.  The prompt holds the requirement text as it is, between double
    quotes, with nothing escaped or cut; two texts that differ give two
    prompts that differ. *)
Theorem prompt_holds_text_verbatim text :
  PyStr.contains (PyRepr.dq +:+ text +:+ PyRepr.dq) (prompt text) = true
  /\ (forall other, prompt other = prompt text -> other = text).
Proof.
  split.
  - apply contains_spec. exists prompt_head, prompt_tail. apply prompt_split.
  - intros other H. rewrite !prompt_split in H.
    apply String.app_inj in H.
    apply append_cancel_r in H.
    apply String.app_inj in H.
    now apply append_cancel_r in H.
Qed.

(** ** The further statements on concrete inputs *)

Lemma strip_fences_without_marker_witness :
  PyStr.contains "```" only_classification = false
  /\ strip_fences only_classification = PyStr.strip only_classification.
Proof.
  assert (H : PyStr.contains "```" only_classification = false)
    by (vm_compute; reflexivity).
  split; [exact H | exact (strip_fences_without_marker only_classification H)].
Defined.

Lemma unconfigured_model_witness :
  (gemini missing_key_env = MissingKey \/ gemini missing_key_env = SetupError)
  /\ session_after Json.loads missing_key_env (ChatInput login_text) after_login
     = after_login.
Proof.
  assert (H : gemini missing_key_env = MissingKey
              \/ gemini missing_key_env = SetupError) by (left; reflexivity).
  split; [exact H |].
  exact (proj1 (proj2 (unconfigured_model_stops_every_run Json.loads missing_key_env
                         (ChatInput login_text) after_login H))).
Defined.

Lemma idle_run_witness :
  well_formed after_login
  /\ session_after Json.loads login_env NoEvent after_login = after_login.
Proof.
  assert (Hwf : well_formed after_login) by (vm_compute; reflexivity).
  split; [exact Hwf |].
  exact (proj1 (proj2 (idle_run_only_renders Json.loads login_env NoEvent after_login
                         (fun _ => ReplyText login_response)
                         eq_refl Hwf (or_introl eq_refl)))).
Defined.


Lemma misshaped_submission_witness :
  well_formed fresh_session
  /\ shape_error (VDict [("classification", VStr "Functional")])
     = Some (KeyError "suggested_rewrite")
  /\ fst (handle Json.loads misshaped_env (ChatInput login_text) fresh_session)
     = inl (Raise (KeyError "suggested_rewrite")).
Proof.
  assert (Hwf : well_formed fresh_session) by (vm_compute; reflexivity).
  assert (Hne : login_text <> EmptyString) by discriminate.
  assert (Hl : Json.loads (strip_fences only_classification)
               = Some (VDict [("classification", VStr "Functional")]))
    by (vm_compute; reflexivity).
  split; [exact Hwf | split; [reflexivity |]].
  exact (proj1 (misshaped_submission_keeps_only_user_turn Json.loads misshaped_env
                  fresh_session (fun _ => ReplyText only_classification) login_text
                  only_classification _ (KeyError "suggested_rewrite")
                  eq_refl Hwf Hne eq_refl Hl eq_refl)).
Defined.

Lemma after_login_reachable : reachable Json.loads after_login.
Proof. apply reachable_step, reachable_fresh. Defined.

Lemma entries_match_witness :
  reachable Json.loads after_login
  /\ total_entries after_login = count_role "assistant" (messages after_login).
Proof.
  split; [exact after_login_reachable |].
  exact (proj1 (entries_match_assistant_turns Json.loads after_login
                  after_login_reachable)).
Defined.

Lemma non_functional_empty_witness :
  reachable Json.loads after_login /\ tally after_login "non_functional" = 0.
Proof.
  split; [exact after_login_reachable |].
  exact (proj2 (non_functional_list_stays_empty Json.loads after_login
                  after_login_reachable)).
Defined.

Lemma log_turns_witness :
  reachable Json.loads after_login /\ Forall turn_ok (messages after_login).
Proof.
  split; [exact after_login_reachable |].
  exact (log_turns_are_well_formed Json.loads after_login after_login_reachable).
Defined.

Lemma entries_from_log_witness :
  reachable Json.loads after_login /\ entries_from_log after_login.
Proof.
  split; [exact after_login_reachable |].
  exact (entries_come_from_user_turns Json.loads after_login after_login_reachable).
Defined.

Lemma only_clear_removes_witness :
  well_formed after_login
  /\ messages after_login
     `prefix_of` messages (session_after Json.loads misshaped_env
                             (ChatInput login_text) after_login).
Proof.
  assert (Hwf : well_formed after_login) by (vm_compute; reflexivity).
  split; [exact Hwf |].
  exact (proj1 (only_clear_removes Json.loads misshaped_env (ChatInput login_text)
                  after_login Hwf ltac:(discriminate) ltac:(discriminate))).
Defined.

Lemma submission_is_displayed_witness :
  well_formed fresh_session
  /\ exists before,
       page_after Json.loads login_env (ChatInput login_text) fresh_session
       = before ++ [ChatMessage "user" login_text;
                    ChatMessage "assistant"
                      (bot_response (VStr "Functional") (VStr "Describes a feature")
                         (VStr login_text));
                    Button "Clear Chat"].
Proof.
  assert (Hwf : well_formed fresh_session) by (vm_compute; reflexivity).
  assert (Hl : Json.loads (strip_fences login_response) = Some login_result)
    by (vm_compute; reflexivity).
  assert (Hne : login_text <> EmptyString) by discriminate.
  split; [exact Hwf |].
  exact (submission_is_displayed Json.loads login_env fresh_session
           (fun _ => ReplyText login_response) login_text login_response
           login_result "Functional" (VStr login_text) (VStr "Describes a feature")
           eq_refl Hwf Hne eq_refl Hl eq_refl eq_refl eq_refl).
Defined.


Lemma handled_event_witness :
  well_formed fresh_session
  /\ fst (handle Json.loads login_env (ChatInput login_text) fresh_session) = inr tt
  /\ exists before,
       page_after Json.loads login_env (ChatInput login_text) fresh_session
       = before ++ page_of after_login.
Proof.
  assert (Hwf : well_formed fresh_session) by (vm_compute; reflexivity).
  assert (Hr : fst (handle Json.loads login_env (ChatInput login_text) fresh_session)
               = inr tt) by (vm_compute; reflexivity).
  split; [exact Hwf | split; [exact Hr |]].
  exact (handled_event_shows_current_state Json.loads login_env
           (ChatInput login_text) fresh_session (fun _ => ReplyText login_response)
           eq_refl Hwf Hr).
Defined.
